(** * process_icons.py: resizing one source image into the extension icons

    The script [src/process_icons.py] is a straight-line program over two
    libraries: [os] (path arithmetic, [os.path.exists], [os.makedirs]) and
    Pillow ([Image.open], [Image.resize], [Image.save]), plus [print].
    The development below embeds the script as a computation in a small
    state-and-exception monad over an explicit world (file system, the
    paths the operating system refuses to touch, standard output, and the
    sequence of library calls made so far), and proves the properties the
    specification states about it.

    The paths in the script are Windows paths, so [os.path] is modelled
    after [ntpath]. *)

From Stdlib Require Import ZArith String Ascii List DecimalString.
From stdpp Require Import base option gmap strings list.

Local Open Scope string_scope.
Local Open Scope Z_scope.
Local Open Scope list_scope.

(** ** Strings and Windows paths *)

Module Path.

Definition is_sep (c : ascii) : bool :=
  (Ascii.eqb c "\" || Ascii.eqb c "/")%bool.

Definition is_empty (s : string) : bool :=
  match s with EmptyString => true | String _ _ => false end.

Definition starts_with_sep (s : string) : bool :=
  match s with EmptyString => false | String c _ => is_sep c end.

Fixpoint ends_with_sep (s : string) : bool :=
  match s with
  | EmptyString => false
  | String c EmptyString => is_sep c
  | String _ r => ends_with_sep r
  end.

(** [ntpath.splitdrive], drive-letter form only (no UNC shares). *)
Definition splitdrive (p : string) : string * string :=
  match p with
  | String c (String ":" r) => (String c (String ":" EmptyString), r)
  | _ => (EmptyString, p)
  end.

(** [(p[:i], p[i:])] where [i] is the index just beyond the last
    separator of [p] (0 when there is none). *)
Fixpoint cut_last (p : string) : string * string :=
  match p with
  | EmptyString => (EmptyString, EmptyString)
  | String c r =>
      let '(h, t) := cut_last r in
      if is_empty h
      then (if is_sep c then (String c EmptyString, r)
            else (EmptyString, String c r))
      else (String c h, t)
  end.

(** [s.rstrip(seps)] *)
Fixpoint rstrip_seps (s : string) : string :=
  match s with
  | EmptyString => EmptyString
  | String c r =>
      let r' := rstrip_seps r in
      if (is_empty r' && is_sep c)%bool then EmptyString else String c r'
  end.

(** [ntpath.split]: [(head, tail)] where [tail] is everything after the
    final separator; trailing separators are stripped from [head]
    unless it is the root. *)
Definition split (p : string) : string * string :=
  let '(d, q) := splitdrive p in
  let '(h, t) := cut_last q in
  let h' := rstrip_seps h in
  (d +:+ (if is_empty h' then h else h'), t).

Definition dirname (p : string) : string := fst (split p).
Definition basename (p : string) : string := snd (split p).

(** The chain of directories above [name], nearest first, as
    [os.makedirs] walks it: split off the last component (skipping a
    trailing separator) while both parts are non-empty.  Every head is
    shorter than the path it was split from, so [String.length name]
    steps reach the root. *)
Fixpoint heads (steps : nat) (name : string) : list string :=
  match steps with
  | O => []
  | S n =>
      let '(head, tail) := split name in
      let '(head, tail) := if is_empty tail then split head else (head, tail) in
      if (negb (is_empty head) && negb (is_empty tail))%bool
      then head :: heads n head
      else []
  end.

Definition ancestors (name : string) : list string :=
  heads (String.length name) name.

(** [ntpath.join] for two arguments.  Drive letters are compared
    exactly (the library compares them case-insensitively). *)
Definition join (path p : string) : string :=
  let '(result_drive, result_path) := splitdrive path in
  let '(p_drive, p_path) := splitdrive p in
  if starts_with_sep p_path then
    (if (negb (is_empty p_drive) || is_empty result_drive)%bool
     then p_drive else result_drive) +:+ p_path
  else if (negb (is_empty p_drive) && negb (String.eqb p_drive result_drive))%bool then
    p_drive +:+ p_path
  else
    let result_path' :=
      if (negb (is_empty result_path) && negb (ends_with_sep result_path))%bool
      then result_path +:+ "\" else result_path in
    result_drive +:+ result_path' +:+ p_path.

Definition lower_ascii (c : ascii) : ascii :=
  let n := nat_of_ascii c in
  if ((65 <=? n)%nat && (n <=? 90)%nat)%bool then ascii_of_nat (n + 32) else c.

Fixpoint lower (s : string) : string :=
  match s with
  | EmptyString => EmptyString
  | String c r => String (lower_ascii c) (lower r)
  end.

(** The suffix of [s] that starts at its last dot, if it has one. *)
Fixpoint last_dot_suffix (s : string) : option string :=
  match s with
  | EmptyString => None
  | String c r =>
      match last_dot_suffix r with
      | Some e => Some e
      | None => if Ascii.eqb c "." then Some s else None
      end
  end.

Fixpoint lstrip_dots (s : string) : string :=
  match s with
  | String "." r => lstrip_dots r
  | _ => s
  end.

(** [os.path.splitext(p)[1]]: the extension of the last component;
    leading dots of that component do not start an extension. *)
Definition ext (p : string) : string :=
  match lstrip_dots (snd (cut_last (snd (splitdrive p)))) with
  | EmptyString => EmptyString
  | String _ r => default EmptyString (last_dot_suffix r)
  end.

(** [repr] of a path as it appears in exception messages: quoted, with
    backslashes doubled. *)
Fixpoint escape (s : string) : string :=
  match s with
  | EmptyString => EmptyString
  | String c r =>
      if Ascii.eqb c "\" then String "\" (String "\" (escape r))
      else String c (escape r)
  end.

Definition repr (s : string) : string := "'" +:+ escape s +:+ "'".

End Path.

(** [str(n)] for a Python integer. *)
Definition str (n : Z) : string := NilZero.string_of_int (Z.to_int n).

(** ** Exceptions *)

Inductive exn_kind :=
| FileNotFoundError | FileExistsError | PermissionError
| UnidentifiedImageError | DecompressionBombError | OSError | ValueError.

(** An exception with the text [str(e)] yields.  Every kind above is a
    subclass of [Exception]. *)
Record exn := Exn { kind : exn_kind; message : string }.

(** ** Images *)

(** [PIL.Image.Resampling] *)
Inductive resampling := NEAREST | BOX | BILINEAR | HAMMING | BICUBIC | LANCZOS.

Inductive format := PNG | JPEG | GIF | BMP | ICO | TIFF | WEBP.

(** [Image.mode]: bilevel, greyscale, greyscale with alpha, palette,
    true colour, true colour with alpha, colour separation, video
    colour, 32-bit integer and floating-point pixels. *)
Inductive mode :=
| Mode1 | ModeL | ModeLA | ModeP | ModeRGB | ModeRGBA
| ModeCMYK | ModeYCbCr | ModeI | ModeF.

Definition mode_name (m : mode) : string :=
  match m with
  | Mode1 => "1" | ModeL => "L" | ModeLA => "LA" | ModeP => "P"
  | ModeRGB => "RGB" | ModeRGBA => "RGBA" | ModeCMYK => "CMYK"
  | ModeYCbCr => "YCbCr" | ModeI => "I" | ModeF => "F"
  end.

(** A decoded raster.  Pixel values are not interpreted: a picture is
    either one that was decoded from a file (identified by [pixels]) or
    the result of resampling another one with a given filter to a given
    size. *)
Inductive raster :=
| Picture (pixels : positive) (m : mode) (width height : Z)
| Resampled (src : raster) (filter : resampling) (width height : Z).

Definition size (r : raster) : Z * Z :=
  match r with
  | Picture _ _ w h => (w, h)
  | Resampled _ _ w h => (w, h)
  end.

(** Resampling keeps the mode. *)
Fixpoint mode_of (r : raster) : mode :=
  match r with
  | Picture _ m _ _ => m
  | Resampled src _ _ _ => mode_of src
  end.

(** What a regular file holds, as far as Pillow can tell. *)
Inductive data :=
| Encoded (f : format) (r : raster)
    (* a complete image file *)
| Damaged (f : format) (width height : Z) (e : exn)
    (* header readable, pixel data not: decoding it raises [e] *)
| Junk (bytes : list ascii).
    (* not an image at all *)

(** The object [Image.open] returns.  Opening is lazy: only the header
    is read; the pixel data is decoded by the first operation that needs
    it. *)
Inductive image :=
| Lazy (f : format) (r : raster)
| Broken (f : format) (width height : Z) (e : exn).

(** ** The world *)

(** What a path holds: a directory or a regular file.  Links and
    junctions are not represented. *)
Inductive node := Dir | File (d : data).

(** One entry per library call, in program order.  For [save] the
    entry also records whether the call returned ([true]) or raised. *)
Inductive call :=
| call_exists (p : string)
| call_makedirs (p : string)
| call_open (p : string)
| call_resize (width height : Z) (filter : resampling)
| call_save (r : raster) (p : string) (returned : bool)
| call_print (line : string).

Record world := World {
  fs : gmap string node;      (* every existing path and what is there *)
  denied : gset string;       (* paths the OS refuses access to *)
  stdout : list string;       (* lines printed so far *)
  calls : list call           (* library calls made so far *)
}.

Definition set_fs (m : gmap string node) (w : world) : world :=
  World m (denied w) (stdout w) (calls w).

Definition log (c : call) (w : world) : world :=
  World (fs w) (denied w) (stdout w) (calls w ++ [c]).

Definition emit (line : string) (w : world) : world :=
  World (fs w) (denied w) (stdout w ++ [line]) (calls w).

(** ** Computations that change the world and may raise *)

Inductive result (A : Type) :=
| Ok (a : A)
| Raise (e : exn).
Arguments Ok {A} a.
Arguments Raise {A} e.

Definition M (A : Type) : Type := world -> result A * world.

Definition ret {A} (a : A) : M A := fun w => (Ok a, w).
Definition raise {A} (e : exn) : M A := fun w => (Raise e, w).

Definition bind {A B} (m : M A) (k : A -> M B) : M B :=
  fun w =>
    match m w with
    | (Ok a, w') => k a w'
    | (Raise e, w') => (Raise e, w')
    end.

Notation "x <~ c1 ;; c2" := (bind c1 (fun x => c2))
  (at level 100, c1 at next level, right associativity).
Notation "c1 ;; c2" := (bind c1 (fun _ => c2))
  (at level 100, right associativity).

(** [try: body  except Exception as e: handler(e)] *)
Definition try_except {A} (body : M A) (handler : exn -> M A) : M A :=
  fun w =>
    match body w with
    | (Ok a, w') => (Ok a, w')
    | (Raise e, w') => handler e w'
    end.

(** [for x in xs: body(x)] *)
Fixpoint for_each {A} (xs : list A) (body : A -> M unit) : M unit :=
  match xs with
  | [] => ret tt
  | x :: xs' => body x ;; for_each xs' body
  end.

(** ** The [os] module *)

Definition exists_in (p : string) (m : gmap string node) : bool :=
  match m !! p with Some _ => true | None => false end.

Definition is_dir_in (p : string) (m : gmap string node) : bool :=
  match m !! p with Some Dir => true | _ => false end.

(** [os.path.exists]: whether [os.stat] succeeds, which on a file system
    of directories and regular files is whether the path is there. *)
Definition os_path_exists (p : string) : M bool :=
  fun w => (Ok (exists_in p (fs w)), log (call_exists p) w).

(** [os.mkdir]: the entry must be free, its parent must be a directory,
    and the OS must allow it. *)
Definition mkdir (p : string) : M unit :=
  fun w =>
    match fs w !! p with
    | Some _ =>
        (Raise (Exn FileExistsError
           ("[WinError 183] Cannot create a file when that file already exists: "
            +:+ Path.repr p)), w)
    | None =>
        if is_dir_in (Path.dirname p) (fs w) then
          if bool_decide (p ∈ denied w) then
            (Raise (Exn PermissionError
               ("[WinError 5] Access is denied: " +:+ Path.repr p)), w)
          else (Ok tt, set_fs (<[p := Dir]> (fs w)) w)
        else
          (Raise (Exn FileNotFoundError
             ("[WinError 3] The system cannot find the path specified: "
              +:+ Path.repr p)), w)
    end.

Definition pass_FileExistsError (e : exn) : M unit :=
  match kind e with
  | FileExistsError => ret tt
  | _ => raise e
  end.

(** [os.makedirs(name)] on the chain [name :: heads]: when the nearest
    head is missing, make it first (and, recursively, whatever is
    missing above it), ignoring a [FileExistsError] from that recursive
    call; then [mkdir name]. *)
Fixpoint makedirs_chain (chain : list string) : M unit :=
  match chain with
  | [] => ret tt
  | name :: heads =>
      match heads with
      | [] => ret tt
      | head :: _ =>
          fun w =>
            if exists_in head (fs w) then (Ok tt, w)
            else try_except (makedirs_chain heads) pass_FileExistsError w
      end ;;
      mkdir name
  end.

Definition os_makedirs (name : string) : M unit :=
  fun w => makedirs_chain (name :: Path.ancestors name) (log (call_makedirs name) w).

(** [print(line)] *)
Definition print (line : string) : M unit :=
  fun w => (Ok tt, log (call_print line) (emit line w)).

(** ** Pillow *)

Definition errno (n : string) (what : string) (p : string) : string :=
  "[Errno " +:+ n +:+ "] " +:+ what +:+ ": " +:+ Path.repr p.

(** [Image.MAX_IMAGE_PIXELS] *)
Definition MAX_IMAGE_PIXELS : Z := 1024 * 1024 * 1024 / 4 / 3.

(** [Image._decompression_bomb_check(size)]: an image of more than
    twice the limit is refused.  (One above the limit only draws a
    warning, which goes to standard error.) *)
Definition decompression_bomb_check (sz : Z * Z) : option exn :=
  let pixels := Z.max 1 (fst sz) * Z.max 1 (snd sz) in
  if 2 * MAX_IMAGE_PIXELS <? pixels then
    Some (Exn DecompressionBombError
            ("Image size (" +:+ str pixels +:+ " pixels) exceeds limit of "
             +:+ str (2 * MAX_IMAGE_PIXELS)
             +:+ " pixels, could be decompression bomb DOS attack."))
  else None.

(** [Image.open(p)]: opens the file, identifies it by its header and
    checks the size the header declares. *)
Definition Image_open (p : string) : M image :=
  fun w =>
    let w := log (call_open p) w in
    match fs w !! p with
    | None =>
        (Raise (Exn FileNotFoundError (errno "2" "No such file or directory" p)), w)
    | Some Dir =>
        (Raise (Exn PermissionError (errno "13" "Permission denied" p)), w)
    | Some (File d) =>
        if bool_decide (p ∈ denied w) then
          (Raise (Exn PermissionError (errno "13" "Permission denied" p)), w)
        else
          match d with
          | Encoded f r =>
              match decompression_bomb_check (size r) with
              | Some e => (Raise e, w)
              | None => (Ok (Lazy f r), w)
              end
          | Damaged f wd ht e =>
              match decompression_bomb_check (wd, ht) with
              | Some e' => (Raise e', w)
              | None => (Ok (Broken f wd ht e), w)
              end
          | Junk _ =>
              (Raise (Exn UnidentifiedImageError
                 ("cannot identify image file " +:+ Path.repr p)), w)
          end
    end.

Definition same_size (a b : Z * Z) : bool :=
  ((fst a =? fst b) && (snd a =? snd b))%bool.

(** The filter [resize] applies: for bilevel and palette images it is
    always [NEAREST], whatever was asked for. *)
Definition applied_filter (m : mode) (resample : resampling) : resampling :=
  match m with
  | Mode1 | ModeP => NEAREST
  | _ => resample
  end.

(** [img.resize((width, height), resample)]: loads the pixel data;
    returns a copy when the picture already has the size asked for, and
    the picture resampled with the applied filter otherwise. *)
Definition Image_resize (img : image) (sz : Z * Z) (resample : resampling) : M raster :=
  fun w =>
    let w := log (call_resize (fst sz) (snd sz) resample) w in
    match img with
    | Broken _ _ _ e => (Raise e, w)
    | Lazy _ r =>
        if same_size (size r) sz then (Ok r, w)
        else
          let resample := applied_filter (mode_of r) resample in
          if ((fst sz <=? 0) || (snd sz <=? 0))%bool
          then (Raise (Exn ValueError "height and width must be > 0"), w)
          else (Ok (Resampled r resample (fst sz) (snd sz)), w)
    end.

(** Pillow's registry of file extensions. *)
Definition EXTENSION : list (string * format) :=
  [(".png", PNG); (".apng", PNG); (".jpg", JPEG); (".jpeg", JPEG);
   (".jpe", JPEG); (".jfif", JPEG); (".gif", GIF); (".bmp", BMP);
   (".ico", ICO); (".tif", TIFF); (".tiff", TIFF); (".webp", WEBP)].

Fixpoint lookup_ext (e : string) (table : list (string * format)) : option format :=
  match table with
  | [] => None
  | (k, f) :: rest => if String.eqb k e then Some f else lookup_ext e rest
  end.

(** Why [open(p, "w+b")] fails, if it does: [p] is a directory, or the
    directory it should live in is not there, or the OS refuses. *)
Definition write_error (p : string) (w : world) : option exn :=
  if is_dir_in p (fs w) then
    Some (Exn PermissionError (errno "13" "Permission denied" p))
  else if negb (is_dir_in (Path.dirname p) (fs w)) then
    Some (Exn FileNotFoundError (errno "2" "No such file or directory" p))
  else if bool_decide (p ∈ denied w) then
    Some (Exn PermissionError (errno "13" "Permission denied" p))
  else None.

(** [open(p, "w+b")]: creates the file, or empties the one that is
    there. *)
Definition open_for_writing (p : string) : M unit :=
  fun w =>
    match write_error p w with
    | Some e => (Raise e, w)
    | None => (Ok tt, set_fs (<[p := File (Junk [])]> (fs w)) w)
    end.

(** The modes the writer of each format takes (the tables [_OUTMODES],
    [RAWMODE] and [SAVE] of the PNG, JPEG and BMP plugins; the GIF, TIFF
    and WebP writers convert or take every mode above). *)
Definition writes (f : format) (m : mode) : bool :=
  match f with
  | PNG | ICO =>
      match m with
      | Mode1 | ModeL | ModeLA | ModeI | ModeP | ModeRGB | ModeRGBA => true
      | _ => false
      end
  | JPEG =>
      match m with
      | Mode1 | ModeL | ModeRGB | ModeCMYK | ModeYCbCr => true
      | _ => false
      end
  | BMP =>
      match m with
      | Mode1 | ModeL | ModeP | ModeRGB | ModeRGBA => true
      | _ => false
      end
  | GIF | TIFF | WEBP => true
  end.

(** The ICO writer stores its frames as PNGs, one for each standard
    icon size the image is large enough for, the smallest being 16. *)
Definition encoder_name (f : format) : string :=
  match f with
  | PNG | ICO => "PNG" | JPEG => "JPEG" | GIF => "GIF" | BMP => "BMP"
  | TIFF => "TIFF" | WEBP => "WEBP"
  end.

Definition has_frames (f : format) (r : raster) : bool :=
  match f with
  | ICO => ((16 <=? fst (size r)) && (16 <=? snd (size r)))%bool
  | _ => true
  end.

(** Why the writer of format [f] refuses picture [r], if it does. *)
Definition encoder_error (f : format) (r : raster) : option exn :=
  if (negb (has_frames f r) || writes f (mode_of r))%bool then None
  else Some (Exn OSError ("cannot write mode " +:+ mode_name (mode_of r)
                          +:+ " as " +:+ encoder_name f)).

(** [r.save(p)]: the format is chosen from the lower-cased extension of
    [p]; the file is opened for writing, which creates or empties it,
    and handed to the writer of that format.  When the writer raises,
    [save] removes the file if opening had created it, and leaves it
    empty otherwise. *)
Definition Image_save (r : raster) (p : string) : M unit :=
  fun w =>
    let e := Path.lower (Path.ext p) in
    match lookup_ext e EXTENSION with
    | None =>
        (Raise (Exn ValueError ("unknown file extension: " +:+ e)),
         log (call_save r p false) w)
    | Some f =>
        let created := negb (exists_in p (fs w)) in
        match open_for_writing p w with
        | (Raise x, w') => (Raise x, log (call_save r p false) w')
        | (Ok _, w') =>
            match encoder_error f r with
            | Some x =>
                (Raise x,
                 log (call_save r p false)
                   (if created then set_fs (delete p (fs w')) w' else w'))
            | None =>
                (Ok tt,
                 log (call_save r p true)
                   (set_fs (<[p := File (Encoded f r)]> (fs w')) w'))
            end
        end
    end.

(** ** The script *)

Definition source_path : string :=
  "C:/Users/Administrator/.gemini/antigravity/brain/a95a8bed-cbac-44a9-a43c-18bee19e65ae/web_scraper_spider_icon_1769348297278.png".
Definition dest_dir : string := "D:\AI_project\web-scraper\src\icons".
Definition dist_dir : string := "D:\AI_project\web-scraper\dist\icons".

Definition sizes : list Z := [16; 48; 128].

(** Lines 28-32: the two guarded [os.makedirs] calls. *)
Definition prepare : M unit :=
  found <~ os_path_exists dest_dir ;;
  (if negb found then os_makedirs dest_dir else ret tt) ;;
  found <~ os_path_exists dist_dir ;;
  (if negb found then os_makedirs dist_dir else ret tt).

(** Lines 39-49: one pass of the loop. *)
Definition iteration (img : image) (size : Z) : M unit :=
  resized_img <~ Image_resize img (size, size) LANCZOS ;;
  let src_save_path := Path.join dest_dir ("icon" +:+ str size +:+ ".png") in
  Image_save resized_img src_save_path ;;
  print ("Saved " +:+ src_save_path) ;;
  let dist_save_path := Path.join dist_dir ("icon" +:+ str size +:+ ".png") in
  Image_save resized_img dist_save_path ;;
  print ("Saved " +:+ dist_save_path).

(** Lines 35-49: the body of the [try]. *)
Definition body : M unit :=
  img <~ Image_open source_path ;;
  for_each sizes (iteration img).

(** Line 52: the [except Exception as e] clause. *)
Definition handler (e : exn) : M unit :=
  print ("Error processing image: " +:+ message e).

Definition process_icons : M unit :=
  prepare ;;
  try_except body handler.

(** A run of the script starts with nothing printed and no call made.
    The interpreter exits with status 0 when the script runs off its
    end, and prints a traceback and exits with status 1 when an
    exception propagates out of it. *)
Definition boot (m : gmap string node) (no : gset string) : world :=
  World m no [] [].

Definition run (m : gmap string node) (no : gset string) : result unit * world :=
  process_icons (boot m no).

Definition exit_status (r : result unit) : Z :=
  match r with Ok _ => 0 | Raise _ => 1 end.

(** ** Vocabulary for the statements *)

(** The two paths pass [size] of the loop writes to. *)
Definition src_icon (size : Z) : string :=
  Path.join dest_dir ("icon" +:+ str size +:+ ".png").
Definition dist_icon (size : Z) : string :=
  Path.join dist_dir ("icon" +:+ str size +:+ ".png").

Definition targets : list string :=
  flat_map (fun size => [src_icon size; dist_icon size]) sizes.

(** The resized copy of [src] for [size], and the file holding it. *)
Definition icon (src : raster) (n : Z) : raster :=
  if same_size (size src) (n, n) then src
  else Resampled src (applied_filter (mode_of src) LANCZOS) n n.
Definition icon_file (src : raster) (size : Z) : node :=
  File (Encoded PNG (icon src size)).

(** What completed passes for the sizes [done] leave behind. *)
Definition written (src : raster) (done : list Z) (m : gmap string node)
  : gmap string node :=
  foldl (fun m size =>
           <[dist_icon size := icon_file src size]>
             (<[src_icon size := icon_file src size]> m)) m done.

Definition saved_lines (done : list Z) : list string :=
  flat_map (fun size => ["Saved " +:+ src_icon size; "Saved " +:+ dist_icon size]) done.

Definition pass_calls (src : raster) (size : Z) : list call :=
  [call_resize size size LANCZOS;
   call_save (icon src size) (src_icon size) true;
   call_print ("Saved " +:+ src_icon size);
   call_save (icon src size) (dist_icon size) true;
   call_print ("Saved " +:+ dist_icon size)].

Definition loop_calls (src : raster) (done : list Z) : list call :=
  flat_map (pass_calls src) done.

(** The world after a completed pass for [size], started in [w]. *)
Definition pass_world (src : raster) (size : Z) (w : world) : world :=
  World (<[dist_icon size := icon_file src size]>
           (<[src_icon size := icon_file src size]> (fs w)))
        (denied w)
        (stdout w ++ ["Saved " +:+ src_icon size; "Saved " +:+ dist_icon size])
        (calls w ++ pass_calls src size).

(** The directories [prepare] may create. *)
Definition dir_chain : list string :=
  (dest_dir :: Path.ancestors dest_dir) ++ (dist_dir :: Path.ancestors dist_dir).

(** The entries directly inside directory [d]. *)
Definition inside (d p : string) : Prop := Path.dirname p = d /\ p <> d.

Definition listing (d : string) (m : gmap string node) : gset string :=
  dom (filter (fun kv => inside d kv.1) m).

(** One of the two guarded [os.makedirs] calls of [prepare]. *)
Definition ensure (d : string) : M unit :=
  found <~ os_path_exists d ;;
  if negb found then os_makedirs d else ret tt.

(** The calls [prepare] makes never touch a file. *)
Definition dir_call (c : call) : Prop :=
  exists p, c = call_exists p \/ c = call_makedirs p.

(** A file system is a tree: whatever exists lives in a directory (a
    drive root is its own parent). *)
Definition tree (m : gmap string node) : Prop :=
  map_Forall (fun p _ => is_dir_in (Path.dirname p) m = true) m.

(** [w'] is [w] with some directories added, all of them from [among];
    nothing that existed has changed, and nothing was printed. *)
Definition grows (among : list string) (w w' : world) : Prop :=
  denied w' = denied w /\ stdout w' = stdout w /\
  forall p, fs w' !! p = fs w !! p \/
            (p ∈ among /\ fs w !! p = None /\ fs w' !! p = Some Dir).

(** The [Saved] lines the recorded successful saves account for. *)
Definition lines_for_saves (cs : list call) : list string :=
  flat_map (fun c => match c with
                     | call_save _ p true => ["Saved " +:+ p]
                     | _ => []
                     end) cs.

Definition error_line (e : exn) : string :=
  "Error processing image: " +:+ message e.

(** What a [save] that the writer refuses leaves of the files [m]: the
    file at [p] is empty if there was one, and there is none if there
    was none. *)
Definition emptied (p : string) (m : gmap string node) : gmap string node :=
  match m !! p with
  | Some _ => <[p := File (Junk [])]> m
  | None => m
  end.

(** [w'] is [w] after some activity of the [try] body: the only files
    touched are output files, each now a PNG or empty, and exactly the
    recorded successful saves were reported on standard output. *)
Definition advances (w w' : world) : Prop :=
  denied w' = denied w /\
  (exists cs, calls w' = calls w ++ cs /\
              stdout w' = stdout w ++ lines_for_saves cs) /\
  forall p, fs w' !! p = fs w !! p \/
            (p ∈ targets /\
             ((exists r, fs w' !! p = Some (File (Encoded PNG r))) \/
              fs w' !! p = Some (File (Junk [])))).



(** How a run ends: the [try] body finished, or it raised and the
    [except] clause took over, or directory preparation raised. *)
Inductive verdict :=
| Completed
| Caught (e : exn)
| Uncaught (e : exn).

Definition status (m : gmap string node) (no : gset string) : verdict :=
  match prepare (boot m no) with
  | (Raise e, _) => Uncaught e
  | (Ok _, w) =>
      match body w with
      | (Raise e, _) => Caught e
      | (Ok _, _) => Completed
      end
  end.

(** The size and destination of every [save] call, in order. *)
Definition saves (cs : list call) : list (Z * Z * string) :=
  flat_map (fun c => match c with
                     | call_save r p _ => [(size r, p)]
                     | _ => []
                     end) cs.

(** The sizes of the [resize] calls, in order: one per pass started. *)
Definition resized (cs : list call) : list Z :=
  flat_map (fun c => match c with
                     | call_resize width _ _ => [width]
                     | _ => []
                     end) cs.

(** The world after the [except] clause has reported [e], started in
    [w]. *)
Definition reported (e : exn) (w : world) : world :=
  World (fs w) (denied w) (stdout w ++ [error_line e])
        (calls w ++ [call_print (error_line e)]).

(** Where the loop stood when the [try] body ended: [next] is the size
    whose first file had been written but not yet its second, if the
    body ended between the two saves of a pass. *)
Definition half_pass (src : raster) (next : option Z) (m : gmap string node)
  : gmap string node :=
  match next with
  | Some s => <[src_icon s := icon_file src s]> m
  | None => m
  end.

Definition half_line (next : option Z) : list string :=
  match next with
  | Some s => ["Saved " +:+ src_icon s]
  | None => []
  end.

(** Two worlds that differ at most in what regular files the output
    paths hold. *)
Definition alike (w w' : world) : Prop :=
  denied w' = denied w /\
  forall q, fs w' !! q = fs w !! q \/
            (q ∈ targets /\ is_dir_in q (fs w) = false /\ is_dir_in q (fs w') = false).

(** The calls of directory preparation, and the calls of the loop for a
    source picture [src]. *)
Definition prep_call (c : call) : Prop :=
  exists d, (d = dest_dir \/ d = dist_dir) /\ (c = call_exists d \/ c = call_makedirs d).

Definition loop_call (src : raster) (c : call) : Prop :=
  match c with
  | call_resize width height filter =>
      width = height /\ width ∈ sizes /\ filter = LANCZOS
  | call_save r p _ =>
      exists s, s ∈ sizes /\ r = icon src s /\ (p = src_icon s \/ p = dist_icon s)
  | call_print _ => True
  | _ => False
  end.


(** ** Sample worlds *)

Definition photo : raster := Picture 7 ModeRGB 512 300.

(** Two drives; [C:] holds the folder the source image is expected in,
    [D:] is empty. *)
Definition no_source_disk : gmap string node :=
  {[ "C:/" := Dir; "C:/Users" := Dir; "C:/Users/Administrator" := Dir;
     "C:/Users/Administrator/.gemini" := Dir;
     "C:/Users/Administrator/.gemini/antigravity" := Dir;
     "C:/Users/Administrator/.gemini/antigravity/brain" := Dir;
     "C:/Users/Administrator/.gemini/antigravity/brain/a95a8bed-cbac-44a9-a43c-18bee19e65ae" := Dir;
     "D:\" := Dir ]}.

(** The same disk with a zero-byte file, and with a truncated PNG, where
    the source image should be. *)
Definition empty_source_disk : gmap string node :=
  <[ source_path := File (Junk []) ]> no_source_disk.
Definition truncated_source_disk : gmap string node :=
  <[ source_path :=
       File (Damaged PNG 512 512
               (Exn OSError "image file is truncated (0 bytes not processed)")) ]>
    no_source_disk.

(** The same disk with the source image in place (a 512x300 JPEG). *)
Definition fresh_disk : gmap string node :=
  <[ source_path := File (Encoded JPEG photo) ]> no_source_disk.

(** The same disk with other sources: a 64x64 palette PNG, and a 48x48
    true-colour PNG. *)
Definition sprite : raster := Picture 11 ModeP 64 64.
Definition palette_disk : gmap string node :=
  <[ source_path := File (Encoded PNG sprite) ]> no_source_disk.

Definition thumb : raster := Picture 13 ModeRGB 48 48.
Definition small_disk : gmap string node :=
  <[ source_path := File (Encoded PNG thumb) ]> no_source_disk.

Definition project_dirs : gmap string node :=
  {[ "D:\AI_project" := Dir; "D:\AI_project\web-scraper" := Dir;
     "D:\AI_project\web-scraper\src" := Dir;
     "D:\AI_project\web-scraper\dist" := Dir;
     dist_dir := Dir ]}.

(** Both icon directories exist; [src\icons] holds a file from an
    earlier build and an outdated [icon48.png]. *)
Definition used_disk : gmap string node :=
  <[ "D:\AI_project\web-scraper\src\icons\logo.svg" := File (Junk []) ]>
  (<[ src_icon 48 := File (Encoded PNG (Picture 3 ModeRGBA 48 48)) ]>
   (<[ dest_dir := Dir ]> (project_dirs ∪ fresh_disk))).

(** A regular file sits where the [src\icons] directory should be. *)
Definition file_in_the_way : gmap string node :=
  <[ dest_dir := File (Junk []) ]> (project_dirs ∪ fresh_disk).

(** The used disk with a CMYK JPEG as the source and an [icon16.png]
    from an earlier build. *)
Definition separation : raster := Picture 5 ModeCMYK 512 300.
Definition cmyk_disk : gmap string node :=
  <[ src_icon 16 := File (Encoded PNG (Picture 2 ModeRGBA 16 16)) ]>
  (<[ source_path := File (Encoded JPEG separation) ]> used_disk).

(** [dist\icons\icon48.png] is a directory. *)
Definition blocked_disk : gmap string node :=
  <[ dist_icon 48 := Dir ]> (<[ dest_dir := Dir ]> (project_dirs ∪ fresh_disk)).

(** The OS refuses to create [D:\AI_project]. *)
Definition locked : gset string := {[ "D:\AI_project" ]}.

(** ** Running computations *)

Lemma pair_fst {A B} (x : A * B) (a : A) : fst x = a -> x = (a, snd x).
Proof. destruct x. simpl. by intros ->. Qed.

Lemma bind_Ok {A B} (m : M A) (k : A -> M B) w a w1 :
  m w = (Ok a, w1) -> bind m k w = k a w1.
Proof. intros H. unfold bind. by rewrite H. Qed.

Lemma bind_Raise {A B} (m : M A) (k : A -> M B) w e w1 :
  m w = (Raise e, w1) -> bind m k w = (Raise e, w1).
Proof. intros H. unfold bind. by rewrite H. Qed.

Lemma bind_inv {A B} (m : M A) (k : A -> M B) w r w' :
  bind m k w = (r, w') ->
  (exists a w1, m w = (Ok a, w1) /\ k a w1 = (r, w')) \/
  (exists e, m w = (Raise e, w') /\ r = Raise e).
Proof.
  unfold bind. destruct (m w) as [[a|e] w1]; intros H.
  - left. eauto.
  - right. exists e. by inversion H.
Qed.

Lemma for_each_app {A} (l1 l2 : list A) (f : A -> M unit) w :
  for_each (l1 ++ l2) f w =
  match for_each l1 f w with
  | (Ok _, w1) => for_each l2 f w1
  | (Raise e, w1) => (Raise e, w1)
  end.
Proof.
  revert w. induction l1 as [|x l1 IH]; intros w; simpl; [done|].
  unfold bind. destruct (f x w) as [[[]|e] w1]; [apply IH | done].
Qed.

(** A loop that raises does so in exactly one pass, after the passes
    before it have completed. *)
Lemma for_each_raise {A} (l : list A) (f : A -> M unit) w e w' :
  for_each l f w = (Raise e, w') ->
  exists done x rest w1,
    l = done ++ x :: rest /\
    for_each done f w = (Ok tt, w1) /\
    f x w1 = (Raise e, w').
Proof.
  revert w. induction l as [|x l IH]; intros w; simpl; [done|].
  unfold bind. destruct (f x w) as [[[]|e1] w1] eqn:Hx; intros H.
  - destruct (IH _ H) as (done & y & rest & w2 & -> & Hd & Hy).
    exists (x :: done), y, rest, w2. split; [done|]. split; [|done].
    simpl. unfold bind. by rewrite Hx.
  - inversion H; subst. by exists [], x, l, w.
Qed.

(** Once a pass raises, the passes after it contribute nothing. *)
Lemma for_each_abort {A} (done rest : list A) x (f : A -> M unit) w w1 e w' :
  for_each done f w = (Ok tt, w1) ->
  f x w1 = (Raise e, w') ->
  for_each (done ++ x :: rest) f w = (Raise e, w').
Proof.
  intros Hd Hx. rewrite for_each_app, Hd. simpl. unfold bind. by rewrite Hx.
Qed.

(** ** Facts about the constants of the script *)

Arguments src_icon : simpl never.
Arguments dist_icon : simpl never.

Lemma elem_of_sizes s : s ∈ sizes <-> s = 16 \/ s = 48 \/ s = 128.
Proof. unfold sizes. rewrite !elem_of_cons, elem_of_nil. tauto. Qed.

Lemma targets_eq :
  targets =
  [ "D:\AI_project\web-scraper\src\icons\icon16.png";
    "D:\AI_project\web-scraper\dist\icons\icon16.png";
    "D:\AI_project\web-scraper\src\icons\icon48.png";
    "D:\AI_project\web-scraper\dist\icons\icon48.png";
    "D:\AI_project\web-scraper\src\icons\icon128.png";
    "D:\AI_project\web-scraper\dist\icons\icon128.png" ].
Proof. reflexivity. Qed.

Lemma dir_chain_eq :
  dir_chain =
  [ "D:\AI_project\web-scraper\src\icons"; "D:\AI_project\web-scraper\src";
    "D:\AI_project\web-scraper"; "D:\AI_project"; "D:\";
    "D:\AI_project\web-scraper\dist\icons"; "D:\AI_project\web-scraper\dist";
    "D:\AI_project\web-scraper"; "D:\AI_project"; "D:\" ].
Proof. reflexivity. Qed.

Lemma src_icon_target s : s ∈ sizes -> src_icon s ∈ targets.
Proof. rewrite elem_of_sizes. intros [-> | [-> | ->]]; apply (bool_decide_unpack _); by vm_compute. Qed.

Lemma dist_icon_target s : s ∈ sizes -> dist_icon s ∈ targets.
Proof. rewrite elem_of_sizes. intros [-> | [-> | ->]]; apply (bool_decide_unpack _); by vm_compute. Qed.

Lemma elem_of_targets p :
  p ∈ targets <-> exists s, s ∈ sizes /\ (p = src_icon s \/ p = dist_icon s).
Proof.
  split.
  - unfold targets, sizes. simpl. rewrite !elem_of_cons, elem_of_nil.
    intros H. destruct H as [H|[H|[H|[H|[H|[H|[]]]]]]];
      [exists 16|exists 16|exists 48|exists 48|exists 128|exists 128];
      (split; [rewrite elem_of_sizes; tauto | tauto]).
  - intros (s & Hs & [-> | ->]); auto using src_icon_target, dist_icon_target.
Qed.

Lemma target_format p :
  p ∈ targets -> lookup_ext (Path.lower (Path.ext p)) EXTENSION = Some PNG.
Proof.
  rewrite targets_eq. intros H.
  repeat (apply elem_of_cons in H as [-> | H]; [by vm_compute|]).
  by apply elem_of_nil in H.
Qed.

Lemma src_icon_dirname s : s ∈ sizes -> Path.dirname (src_icon s) = dest_dir.
Proof. rewrite elem_of_sizes. intros [-> | [-> | ->]]; by vm_compute. Qed.

Lemma dist_icon_dirname s : s ∈ sizes -> Path.dirname (dist_icon s) = dist_dir.
Proof. rewrite elem_of_sizes. intros [-> | [-> | ->]]; by vm_compute. Qed.

Lemma targets_NoDup : NoDup targets.
Proof. apply (bool_decide_unpack _). by vm_compute. Qed.

(** No output file is the source image, a directory the script may
    create, or the parent of another output file. *)
Lemma targets_apart :
  Forall (fun p => p <> source_path /\ (p ∉ dir_chain) /\
                   Forall (fun q => p <> Path.dirname q) targets) targets.
Proof. apply (bool_decide_unpack _). by vm_compute. Qed.

Lemma source_apart : source_path ∉ dir_chain.
Proof. apply (bool_decide_unpack _). by vm_compute. Qed.

Lemma dir_chain_outside :
  Forall (fun p => Path.dirname p <> dest_dir /\ Path.dirname p <> dist_dir) dir_chain.
Proof. apply (bool_decide_unpack _). by vm_compute. Qed.

Lemma src_dist_apart s t : s ∈ sizes -> t ∈ sizes -> src_icon s <> dist_icon t.
Proof.
  rewrite !elem_of_sizes.
  intros [-> | [-> | ->]] [-> | [-> | ->]]; apply (bool_decide_unpack _); by vm_compute.
Qed.

Lemma src_icon_inj s t : s ∈ sizes -> t ∈ sizes -> src_icon s = src_icon t -> s = t.
Proof.
  rewrite !elem_of_sizes.
  intros [-> | [-> | ->]] [-> | [-> | ->]] H; try done; by vm_compute in H.
Qed.

Lemma dist_icon_inj s t : s ∈ sizes -> t ∈ sizes -> dist_icon s = dist_icon t -> s = t.
Proof.
  rewrite !elem_of_sizes.
  intros [-> | [-> | ->]] [-> | [-> | ->]] H; try done; by vm_compute in H.
Qed.

(** From here on the six output paths are used through the facts above
    only. *)
Opaque src_icon dist_icon.

(** ** The [os] module: directories only ever get added *)

Lemma grows_refl among w : grows among w w.
Proof. repeat split; auto. Qed.

Lemma grows_trans among w1 w2 w3 :
  grows among w1 w2 -> grows among w2 w3 -> grows among w1 w3.
Proof.
  intros (Hd1 & Ho1 & H1) (Hd2 & Ho2 & H2).
  split; [congruence|]. split; [congruence|].
  intros p. destruct (H2 p) as [E2 | (Hin & N2 & D2)].
  - rewrite E2. apply H1.
  - destruct (H1 p) as [E1 | (_ & _ & D1)]; [|congruence].
    right. rewrite <- E1. auto.
Qed.

Lemma grows_mono among among' w w' :
  among ⊆ among' -> grows among w w' -> grows among' w w'.
Proof.
  intros Hsub (Hd & Ho & H). repeat split; auto.
  intros p. destruct (H p) as [E | (Hin & N & D)]; auto.
Qed.

Lemma grows_exists among w w' p :
  grows among w w' -> exists_in p (fs w) = true -> fs w' !! p = fs w !! p.
Proof.
  intros (_ & _ & H) Hp. destruct (H p) as [E | (_ & N & _)]; [done|].
  unfold exists_in in Hp. by rewrite N in Hp.
Qed.

Lemma grows_outside among w w' p :
  grows among w w' -> p ∉ among -> fs w' !! p = fs w !! p.
Proof. intros (_ & _ & H) Hp. by destruct (H p) as [E | (? & _)]. Qed.

Lemma grows_is_dir among w w' p :
  grows among w w' -> is_dir_in p (fs w) = true -> is_dir_in p (fs w') = true.
Proof.
  intros H Hp. unfold is_dir_in in *.
  rewrite (grows_exists among w w' p H); [done|].
  unfold exists_in. by destruct (fs w !! p).
Qed.

Lemma grows_files among w w' p d :
  grows among w w' -> (fs w' !! p = Some (File d) <-> fs w !! p = Some (File d)).
Proof.
  intros (_ & _ & H). destruct (H p) as [E | (_ & N & D)]; [by rewrite E|].
  rewrite N, D. split; discriminate.
Qed.

Lemma is_dir_in_Some p m : is_dir_in p m = true -> m !! p = Some Dir.
Proof. unfold is_dir_in. by destruct (m !! p) as [[|d]|]. Qed.

Lemma is_dir_in_insert_dir p q m :
  is_dir_in q m = true -> is_dir_in q (<[p := Dir]> m) = true.
Proof.
  unfold is_dir_in. intros H. destruct (decide (p = q)) as [-> | Hne].
  - by rewrite lookup_insert_eq.
  - by rewrite lookup_insert_ne.
Qed.


Lemma mkdir_inv p w r w' :
  mkdir p w = (r, w') ->
  (r = Ok tt /\ fs w !! p = None /\ is_dir_in (Path.dirname p) (fs w) = true /\
   w' = set_fs (<[p := Dir]> (fs w)) w) \/
  (exists e, r = Raise e /\ w' = w).
Proof.
  unfold mkdir. destruct (fs w !! p) eqn:Hp.
  { intros [= <- <-]. right. eauto. }
  destruct (is_dir_in _ _) eqn:Hd; [|intros [= <- <-]; right; eauto].
  case_bool_decide; intros [= <- <-]; [right; eauto | left; auto].
Qed.

Lemma mkdir_grows p w r w' : mkdir p w = (r, w') -> grows [p] w w'.
Proof.
  intros H. apply mkdir_inv in H as [(-> & Hp & _ & ->) | (e & -> & ->)];
    [|apply grows_refl].
  repeat split; auto. intros q. simpl. destruct (decide (p = q)) as [-> | Hne].
  - right. rewrite lookup_insert_eq. split; [apply list_elem_of_here | done].
  - left. by rewrite lookup_insert_ne.
Qed.

Lemma tree_insert_dir p m :
  tree m -> is_dir_in (Path.dirname p) m = true -> tree (<[p := Dir]> m).
Proof.
  intros Ht Hd q x Hq. apply is_dir_in_insert_dir.
  destruct (decide (p = q)) as [-> | Hne]; [done|].
  rewrite lookup_insert_ne in Hq by done. by apply (Ht q x).
Qed.


Lemma mkdir_tree p w r w' : mkdir p w = (r, w') -> tree (fs w) -> tree (fs w').
Proof.
  intros H Ht. apply mkdir_inv in H as [(-> & Hp & Hd & ->) | (e & -> & ->)]; [|done].
  by apply tree_insert_dir.
Qed.

Lemma mkdir_calls p w r w' : mkdir p w = (r, w') -> calls w' = calls w.
Proof. intros H. by apply mkdir_inv in H as [(-> & _ & _ & ->) | (e & -> & ->)]. Qed.

(** [os.makedirs] only adds directories of the chain it is given; when
    it returns, the directory asked for is there, inside a directory. *)
Lemma makedirs_chain_spec chain w r w' :
  makedirs_chain chain w = (r, w') ->
  grows chain w w' /\ calls w' = calls w /\ (tree (fs w) -> tree (fs w')) /\
  (r = Ok tt -> forall name heads, chain = name :: heads ->
     is_dir_in name (fs w') = true /\ is_dir_in (Path.dirname name) (fs w') = true).
Proof.
  revert w r w'. induction chain as [|name heads IH]; intros w r w'.
  { intros [= <- <-]. split; [apply grows_refl|]. by repeat split. }
  simpl. intros H. apply bind_inv in H as [([] & w1 & H1 & H2) | (e & H1 & ->)].
  - assert (grows heads w w1 /\ calls w1 = calls w /\ (tree (fs w) -> tree (fs w1)))
      as (G1 & C1 & T1).
    { destruct heads as [|head hs].
      { injection H1 as <-. split; [apply grows_refl|done]. }
      destruct (exists_in head (fs w)).
      { injection H1 as <-. split; [apply grows_refl|done]. }
      unfold try_except in H1.
      destruct (makedirs_chain (head :: hs) w) as [[[]|e] w0] eqn:H0;
        destruct (IH _ _ _ H0) as (G & C & T & _).
      - by injection H1 as <-.
      - unfold pass_FileExistsError in H1.
        destruct (kind e); try done; by injection H1 as <-. }
    split; [|split; [|split]].
    + eapply grows_trans.
      * eapply grows_mono; [|exact G1]. by apply list_subseteq_cons.
      * eapply grows_mono; [|exact (mkdir_grows _ _ _ _ H2)].
        intros x ->%list_elem_of_singleton. apply elem_of_cons. by left.
    + by rewrite (mkdir_calls _ _ _ _ H2).
    + intros Ht. eapply mkdir_tree; eauto.
    + intros -> n hs [= <- <-].
      apply mkdir_inv in H2 as [(_ & Hp & Hd & ->) | (e & ? & _)]; [|done].
      simpl. split; [unfold is_dir_in; by rewrite lookup_insert_eq|].
      by apply is_dir_in_insert_dir.
  - assert (grows heads w w' /\ calls w' = calls w /\ (tree (fs w) -> tree (fs w')))
      as (G1 & C1 & T1).
    { destruct heads as [|head hs]; [done|].
      destruct (exists_in head (fs w)); [done|].
      unfold try_except in H1.
      destruct (makedirs_chain (head :: hs) w) as [[[]|e0] w0] eqn:H0;
        destruct (IH _ _ _ H0) as (G & C & T & _); [done|].
      unfold pass_FileExistsError in H1.
      destruct (kind e0); try done; by injection H1 as <- <-. }
    split; [|by repeat split].
    eapply grows_mono; [|exact G1]. by apply list_subseteq_cons.
Qed.

Lemma ensure_skip d w :
  exists_in d (fs w) = true -> ensure d w = (Ok tt, log (call_exists d) w).
Proof. intros H. unfold ensure, bind, os_path_exists. by rewrite H. Qed.

Lemma ensure_spec d w r w' :
  ensure d w = (r, w') ->
  grows (d :: Path.ancestors d) w w' /\ (tree (fs w) -> tree (fs w')) /\
  (exists cs, calls w' = calls w ++ cs /\ Forall dir_call cs) /\
  (r = Ok tt ->
     exists_in d (fs w') = true /\
     (fs w !! d = None ->
        is_dir_in d (fs w') = true /\ is_dir_in (Path.dirname d) (fs w') = true)).
Proof.
  unfold ensure, bind, os_path_exists. destruct (exists_in d (fs w)) eqn:Hd; simpl.
  - intros [= <- <-]. split; [by repeat split; auto|]. split; [done|]. split.
    + exists [call_exists d]. split; [done|]. repeat constructor. exists d. by left.
    + intros _. split; [done|]. intros N. unfold exists_in in Hd. by rewrite N in Hd.
  - unfold os_makedirs. intros H.
    apply makedirs_chain_spec in H as (G & C & T & D).
    split; [exact G|]. split; [exact T|]. split.
    + exists [call_exists d; call_makedirs d]. split.
      * rewrite C. simpl. by rewrite <- app_assoc.
      * repeat constructor; exists d; auto.
    + intros ->. destruct (D eq_refl _ _ eq_refl) as (D1 & D2).
      split; [|done]. unfold is_dir_in in D1. unfold exists_in.
      by destruct (fs w' !! d).
Qed.

Lemma prepare_ensure w : prepare w = (ensure dest_dir ;; ensure dist_dir) w.
Proof.
  unfold prepare, ensure, bind.
  destruct (os_path_exists dest_dir w) as [[found|e] w1]; [|done].
  by destruct ((if negb found then os_makedirs dest_dir else ret tt) w1) as [[[]|e] w2].
Qed.

Lemma prepare_skip w :
  exists_in dest_dir (fs w) = true -> exists_in dist_dir (fs w) = true ->
  prepare w = (Ok tt, log (call_exists dist_dir) (log (call_exists dest_dir) w)).
Proof.
  intros H1 H2. rewrite prepare_ensure. unfold bind.
  rewrite (ensure_skip _ _ H1). by rewrite ensure_skip.
Qed.

Lemma dest_chain_sub : dest_dir :: Path.ancestors dest_dir ⊆ dir_chain.
Proof. intros x Hx. unfold dir_chain. apply elem_of_app. by left. Qed.

Lemma dist_chain_sub : dist_dir :: Path.ancestors dist_dir ⊆ dir_chain.
Proof. intros x Hx. unfold dir_chain. apply elem_of_app. by right. Qed.

Lemma dist_not_in_dest_chain : dist_dir ∉ dest_dir :: Path.ancestors dest_dir.
Proof. apply (bool_decide_unpack _). by vm_compute. Qed.

(** Directory preparation: only directories of the two chains are
    added; if it returns, both paths exist, and a path that was missing
    is now a directory inside a directory. *)
Lemma prepare_spec w r w' :
  prepare w = (r, w') ->
  grows dir_chain w w' /\ (tree (fs w) -> tree (fs w')) /\
  (exists cs, calls w' = calls w ++ cs /\ Forall dir_call cs) /\
  (r = Ok tt -> forall d, d = dest_dir \/ d = dist_dir ->
     exists_in d (fs w') = true /\
     (fs w !! d = None ->
        is_dir_in d (fs w') = true /\ is_dir_in (Path.dirname d) (fs w') = true)).
Proof.
  rewrite prepare_ensure. intros H.
  apply bind_inv in H as [([] & w1 & H1 & H2) | (e & H1 & ->)].
  - apply ensure_spec in H1 as (G1 & T1 & (cs1 & C1 & F1) & D1).
    apply ensure_spec in H2 as (G2 & T2 & (cs2 & C2 & F2) & D2).
    split; [|split; [|split]].
    + eapply grows_trans; (eapply grows_mono; [|eassumption]);
        [apply dest_chain_sub | apply dist_chain_sub].
    + auto.
    + exists (cs1 ++ cs2). rewrite C2, C1, app_assoc. split; [done|].
      by apply Forall_app.
    + intros -> d [-> | ->].
      * destruct (D1 eq_refl) as (E1 & N1). split.
        { unfold exists_in in *. by rewrite (grows_exists _ _ _ _ G2 E1). }
        intros N. destruct (N1 N) as (A & B).
        split; eapply grows_is_dir; eauto.
      * destruct (D2 eq_refl) as (E2 & N2). split; [done|].
        intros N. apply N2.
        rewrite (grows_outside _ _ _ _ G1 dist_not_in_dest_chain). done.
  - apply ensure_spec in H1 as (G1 & T1 & C1 & D1).
    split; [|by repeat split].
    eapply grows_mono; [apply dest_chain_sub | done].
Qed.








(** ** Pillow: what one pass of the loop does *)

Lemma write_error_None p w :
  write_error p w = None <->
  is_dir_in p (fs w) = false /\ is_dir_in (Path.dirname p) (fs w) = true /\
  p ∉ denied w.
Proof.
  unfold write_error.
  destruct (is_dir_in p (fs w)); [by split; [|intros (? & _)]|].
  destruct (is_dir_in (Path.dirname p) (fs w)); simpl; [|by split; [|intros (_ & ? & _)]].
  case_bool_decide; split; try done. by intros (_ & _ & ?).
Qed.

(** Whether a write is possible depends on the directories and on the
    OS only; writing some other file does not change it. *)
Lemma write_error_frame p q d w w' :
  fs w' = <[q := File d]> (fs w) -> denied w' = denied w ->
  q <> p -> q <> Path.dirname p ->
  write_error p w' = write_error p w.
Proof.
  intros Hf Hd Hp Hq. unfold write_error, is_dir_in.
  by rewrite Hf, Hd, !lookup_insert_ne.
Qed.

Lemma write_error_same p w w' :
  is_dir_in p (fs w') = is_dir_in p (fs w) ->
  is_dir_in (Path.dirname p) (fs w') = is_dir_in (Path.dirname p) (fs w) ->
  denied w' = denied w ->
  write_error p w' = write_error p w.
Proof. intros H1 H2 H3. unfold write_error. by rewrite H1, H2, H3. Qed.

Lemma write_error_log p c w : write_error p (log c w) = write_error p w.
Proof. reflexivity. Qed.


Opaque write_error.


Lemma sizes_pos s : s ∈ sizes -> 0 < s.
Proof. rewrite elem_of_sizes. lia. Qed.

Lemma iteration_unfold img size :
  iteration img size =
  (resized_img <~ Image_resize img (size, size) LANCZOS ;;
   Image_save resized_img (src_icon size) ;;
   print ("Saved " +:+ src_icon size) ;;
   Image_save resized_img (dist_icon size) ;;
   print ("Saved " +:+ dist_icon size)).
Proof. reflexivity. Qed.

(** Resizing keeps the mode, and with it what the PNG writer says. *)
Lemma mode_of_icon src s : mode_of (icon src s) = mode_of src.
Proof. unfold icon. by destruct (same_size _ _). Qed.

Lemma png_error_icon src s : encoder_error PNG (icon src s) = encoder_error PNG src.
Proof. unfold encoder_error. cbn [has_frames]. by rewrite mode_of_icon. Qed.

Lemma size_icon src s : size (icon src s) = (s, s).
Proof.
  unfold icon. destruct (same_size (size src) (s, s)) eqn:E; [|done].
  unfold same_size in E. apply andb_true_iff in E as (A & B).
  apply Z.eqb_eq in A, B. destruct (size src) as [a b]. simpl in A, B. by subst.
Qed.

Lemma Image_save_target r p w :
  p ∈ targets ->
  Image_save r p w =
  match write_error p w with
  | Some e => (Raise e, log (call_save r p false) w)
  | None =>
      match encoder_error PNG r with
      | Some x =>
          (Raise x, log (call_save r p false) (set_fs (emptied p (fs w)) w))
      | None =>
          (Ok tt,
           log (call_save r p true) (set_fs (<[p := File (Encoded PNG r)]> (fs w)) w))
      end
  end.
Proof.
  intros Hp. unfold Image_save, open_for_writing. rewrite (target_format p Hp).
  destruct (write_error p w); [done|].
  destruct (encoder_error PNG r).
  - unfold emptied, exists_in, set_fs, log. cbn [fs denied stdout calls].
    destruct (fs w !! p) eqn:E; cbn [negb]; [done|].
    by rewrite delete_insert_id.
  - unfold set_fs, log. cbn [fs denied stdout calls]. by rewrite insert_insert_eq.
Qed.

Lemma src_not_dist_dir s t :
  s ∈ sizes -> t ∈ sizes -> src_icon s <> Path.dirname (dist_icon t).
Proof.
  intros Hs Ht. rewrite dist_icon_dirname by done.
  rewrite elem_of_sizes in Hs. destruct Hs as [-> | [-> | ->]];
    apply (bool_decide_unpack _); by vm_compute.
Qed.

Lemma bind_assoc {A B C} (m : M A) (f : A -> M B) (g : B -> M C) w :
  bind m (fun x => bind (f x) g) w = bind (bind m f) g w.
Proof. unfold bind. by destruct (m w) as [[a|e] w1]. Qed.

(** Saving to one of the output paths and reporting it. *)
Lemma save_and_report r p w :
  p ∈ targets ->
  (Image_save r p ;; print ("Saved " +:+ p)) w =
  match write_error p w with
  | Some e =>
      (Raise e, World (fs w) (denied w) (stdout w) (calls w ++ [call_save r p false]))
  | None =>
      match encoder_error PNG r with
      | Some x =>
          (Raise x,
           World (emptied p (fs w)) (denied w) (stdout w)
             (calls w ++ [call_save r p false]))
      | None =>
          (Ok tt,
           World (<[p := File (Encoded PNG r)]> (fs w)) (denied w)
             (stdout w ++ ["Saved " +:+ p])
             (calls w ++ [call_save r p true; call_print ("Saved " +:+ p)]))
      end
  end.
Proof.
  intros Hp. unfold bind. rewrite Image_save_target by done.
  destruct (write_error p w); [done|].
  destruct (encoder_error PNG r); [done|].
  unfold print, log, emit, set_fs. cbn [fs denied stdout calls].
  by rewrite <- app_assoc.
Qed.

Lemma iteration_eval img s w :
  s ∈ sizes ->
  iteration img s w =
  match img with
  | Broken _ _ _ e => (Raise e, log (call_resize s s LANCZOS) w)
  | Lazy _ src =>
      match write_error (src_icon s) w with
      | Some e =>
          (Raise e,
           World (fs w) (denied w) (stdout w)
             (calls w ++ [call_resize s s LANCZOS;
                          call_save (icon src s) (src_icon s) false]))
      | None =>
          match encoder_error PNG src with
          | Some x =>
              (Raise x,
               World (emptied (src_icon s) (fs w)) (denied w) (stdout w)
                 (calls w ++ [call_resize s s LANCZOS;
                              call_save (icon src s) (src_icon s) false]))
          | None =>
              match write_error (dist_icon s) w with
              | Some e =>
                  (Raise e,
                   World (<[src_icon s := icon_file src s]> (fs w)) (denied w)
                     (stdout w ++ ["Saved " +:+ src_icon s])
                     (calls w ++ [call_resize s s LANCZOS;
                                  call_save (icon src s) (src_icon s) true;
                                  call_print ("Saved " +:+ src_icon s);
                                  call_save (icon src s) (dist_icon s) false]))
              | None => (Ok tt, pass_world src s w)
              end
          end
      end
  end.
Proof.
  intros Hs. rewrite iteration_unfold.
  pose proof (src_icon_target s Hs) as HA. pose proof (dist_icon_target s Hs) as HB.
  unfold bind at 1. unfold Image_resize.
  destruct img as [f src | f wd ht x]; [|done].
  cbn [fst snd]. rewrite (proj2 (Z.leb_gt s 0) (sizes_pos s Hs)). cbn [orb].
  assert ((if same_size (size src) (s, s)
           then (Ok src, log (call_resize s s LANCZOS) w)
           else (Ok (Resampled src (applied_filter (mode_of src) LANCZOS) s s),
                 log (call_resize s s LANCZOS) w)) =
          (Ok (icon src s), log (call_resize s s LANCZOS) w)) as ->
    by (unfold icon; by destruct (same_size _ _)).
  rewrite bind_assoc. unfold bind at 1. rewrite save_and_report by done.
  rewrite write_error_log, png_error_icon.
  destruct (write_error (src_icon s) w) as [e|] eqn:E1.
  { unfold log. cbn [fs denied stdout calls]. by rewrite <- app_assoc. }
  destruct (encoder_error PNG src) as [x|] eqn:EP.
  { unfold log. cbn [fs denied stdout calls]. by rewrite <- app_assoc. }
  rewrite save_and_report by done. rewrite png_error_icon, EP.
  erewrite (write_error_frame (dist_icon s) (src_icon s) _ w);
    [| reflexivity | reflexivity | by apply src_dist_apart | by apply src_not_dist_dir].
  destruct (write_error (dist_icon s) w) as [e|] eqn:E2;
    unfold pass_world, pass_calls, log; cbn [fs denied stdout calls];
    by rewrite <- !app_assoc.
Qed.

(** ** The loop *)

Lemma written_snoc src l s m :
  written src (l ++ [s]) m =
  <[dist_icon s := icon_file src s]> (<[src_icon s := icon_file src s]> (written src l m)).
Proof. unfold written. by rewrite foldl_app. Qed.

Lemma written_cons src l s m :
  written src (s :: l) m =
  written src l (<[dist_icon s := icon_file src s]> (<[src_icon s := icon_file src s]> m)).
Proof. done. Qed.

Lemma written_other src l m p :
  (forall s, s ∈ l -> p <> src_icon s /\ p <> dist_icon s) ->
  written src l m !! p = m !! p.
Proof.
  induction l as [|s l IH] using rev_ind; intros H; [done|].
  rewrite written_snoc.
  destruct (H s) as (H1 & H2); [apply elem_of_app; right; by apply list_elem_of_singleton|].
  rewrite !lookup_insert_ne by done. apply IH.
  intros t Ht. apply H. apply elem_of_app. by left.
Qed.

Lemma written_icons src l m s :
  Forall (fun s => s ∈ sizes) l -> s ∈ l ->
  written src l m !! src_icon s = Some (icon_file src s) /\
  written src l m !! dist_icon s = Some (icon_file src s).
Proof.
  induction l as [|t l IH] using rev_ind; intros Hl Hs; [by apply elem_of_nil in Hs|].
  apply Forall_app in Hl as (Hl & Ht). rewrite Forall_singleton in Ht.
  rewrite written_snoc.
  destruct (decide (s = t)) as [-> | Hne].
  - split; [|by rewrite lookup_insert_eq].
    rewrite lookup_insert_ne by (apply not_eq_sym; by apply src_dist_apart).
    by rewrite lookup_insert_eq.
  - apply elem_of_app in Hs as [Hs | Hs%list_elem_of_singleton]; [|done].
    assert (s ∈ sizes) as Hss by (eapply Forall_forall in Hl; eauto).
    destruct (IH Hl Hs) as (IH1 & IH2). split.
    + rewrite lookup_insert_ne by (apply not_eq_sym; by apply src_dist_apart).
      rewrite lookup_insert_ne; [done|]. intros E. by apply src_icon_inj in E.
    + rewrite lookup_insert_ne by (intros E; by apply dist_icon_inj in E).
      rewrite lookup_insert_ne; [done|]. by apply src_dist_apart.
Qed.

Lemma target_not_parent p q : p ∈ targets -> q ∈ targets -> q <> Path.dirname p.
Proof.
  intros Hp Hq. pose proof targets_apart as A. rewrite Forall_forall in A.
  destruct (A q Hq) as (_ & _ & A3). rewrite Forall_forall in A3. by apply A3.
Qed.

(** A write that is possible stays possible when output files get
    written. *)
Lemma write_ok_insert p q d w w' :
  p ∈ targets -> q ∈ targets ->
  fs w' = <[q := File d]> (fs w) -> denied w' = denied w ->
  write_error p w = None -> write_error p w' = None.
Proof.
  intros Hp Hq Hf Hd. rewrite !write_error_None, Hf, Hd.
  intros (H1 & H2 & H3). split; [|split; [|done]].
  - unfold is_dir_in in *. destruct (decide (q = p)) as [-> | Hne].
    + by rewrite lookup_insert_eq.
    + by rewrite lookup_insert_ne.
  - unfold is_dir_in in *. by rewrite lookup_insert_ne by by apply target_not_parent.
Qed.

Lemma write_ok_pass p src s w :
  p ∈ targets -> s ∈ sizes ->
  write_error p w = None -> write_error p (pass_world src s w) = None.
Proof.
  intros Hp Hs H.
  apply (write_ok_insert p (dist_icon s) (Encoded PNG (icon src s))
           (World (<[src_icon s := icon_file src s]> (fs w)) (denied w) [] []));
    [done | by apply dist_icon_target | done | done |].
  by apply (write_ok_insert p (src_icon s) (Encoded PNG (icon src s)) w);
    [| apply src_icon_target | | |].
Qed.

Lemma write_error_pass_other p src s w :
  p ∈ targets -> s ∈ sizes -> p <> src_icon s -> p <> dist_icon s ->
  write_error p (pass_world src s w) = write_error p w.
Proof.
  intros Hp Hs H1 H2.
  rewrite (write_error_frame p (dist_icon s) (Encoded PNG (icon src s))
           (World (<[src_icon s := icon_file src s]> (fs w)) (denied w) [] []));
    [| done | done | by apply not_eq_sym
     | apply target_not_parent; [done | by apply dist_icon_target]].
  apply (write_error_frame p (src_icon s) (Encoded PNG (icon src s)) w);
    [done | done | by apply not_eq_sym |].
  apply target_not_parent; [done | by apply src_icon_target].
Qed.

Lemma src_write_error_pass src s t w :
  s ∈ sizes -> t ∈ sizes -> t <> s ->
  write_error (src_icon t) (pass_world src s w) = write_error (src_icon t) w.
Proof.
  intros Hs Ht Hne. apply write_error_pass_other.
  - by apply src_icon_target.
  - done.
  - intros E. by apply src_icon_inj in E.
  - by apply (src_dist_apart t s).
Qed.

Lemma dist_write_error_pass src s t w :
  s ∈ sizes -> t ∈ sizes -> t <> s ->
  write_error (dist_icon t) (pass_world src s w) = write_error (dist_icon t) w.
Proof.
  intros Hs Ht Hne. apply write_error_pass_other.
  - by apply dist_icon_target.
  - done.
  - apply not_eq_sym. by apply (src_dist_apart s t).
  - intros E. by apply dist_icon_inj in E.
Qed.

(** The loop, when every pass completes. *)
Lemma loop_completed f src l w w' :
  Forall (fun s => s ∈ sizes) l ->
  for_each l (iteration (Lazy f src)) w = (Ok tt, w') ->
  w' = World (written src l (fs w)) (denied w)
         (stdout w ++ saved_lines l) (calls w ++ loop_calls src l) /\
  (forall s, s ∈ l ->
     write_error (src_icon s) w = None /\ write_error (dist_icon s) w = None) /\
  (l <> [] -> encoder_error PNG src = None).
Proof.
  intros Hl. revert w w'. induction Hl as [|s l Hs Hl IH]; intros w w'.
  { intros [= <-]. split; [|split; [by intros s ?%elem_of_nil | done]].
    destruct w; simpl. by rewrite !app_nil_r. }
  simpl. unfold bind. rewrite iteration_eval by done.
  destruct (write_error (src_icon s) w) eqn:E1; [done|].
  destruct (encoder_error PNG src) eqn:EP; [done|].
  destruct (write_error (dist_icon s) w) eqn:E2; [done|].
  intros H. destruct (IH _ _ H) as (-> & Hok & _). split; [|split; [|done]].
  - unfold pass_world, pass_calls. cbn [fs denied stdout calls].
    by rewrite <- !app_assoc.
  - intros t [-> | Ht]%elem_of_cons; [exact (conj E1 E2)|].
    destruct (decide (t = s)) as [-> | Hne]; [exact (conj E1 E2)|].
    assert (t ∈ sizes) as Hts by (eapply Forall_forall in Hl; eauto).
    destruct (Hok t Ht) as (H1 & H2).
    rewrite <- (src_write_error_pass src s t w) by assumption.
    rewrite <- (dist_write_error_pass src s t w) by assumption.
    exact (conj H1 H2).
Qed.


(** The loop completes whenever the image is intact and every output
    path can be written. *)
Lemma loop_total f src l w :
  Forall (fun s => s ∈ sizes) l ->
  encoder_error PNG src = None ->
  (forall p, p ∈ targets -> write_error p w = None) ->
  for_each l (iteration (Lazy f src)) w =
  (Ok tt, World (written src l (fs w)) (denied w)
            (stdout w ++ saved_lines l) (calls w ++ loop_calls src l)).
Proof.
  intros Hl EP. revert w. induction Hl as [|s l Hs Hl IH]; intros w Hok.
  { destruct w; simpl. by rewrite !app_nil_r. }
  simpl. unfold bind. rewrite iteration_eval by done.
  rewrite (Hok _ (src_icon_target s Hs)), (Hok _ (dist_icon_target s Hs)), EP.
  rewrite IH.
  - unfold pass_world, pass_calls. cbn [fs denied stdout calls].
    by rewrite <- !app_assoc.
  - intros p Hp. apply write_ok_pass; auto.
Qed.

(** ** Everything the [try] body does is an output file or a report *)

Lemma lines_for_saves_app cs1 cs2 :
  lines_for_saves (cs1 ++ cs2) = lines_for_saves cs1 ++ lines_for_saves cs2.
Proof. unfold lines_for_saves. apply flat_map_app. Qed.

Lemma advances_refl w : advances w w.
Proof.
  split; [done|]. split; [|by left].
  exists []. by rewrite !app_nil_r.
Qed.

Lemma advances_trans w1 w2 w3 : advances w1 w2 -> advances w2 w3 -> advances w1 w3.
Proof.
  intros (D1 & (cs1 & C1 & O1) & F1) (D2 & (cs2 & C2 & O2) & F2).
  split; [congruence|]. split.
  - exists (cs1 ++ cs2). rewrite C2, C1, O2, O1, lines_for_saves_app.
    by rewrite !app_assoc.
  - intros p. destruct (F2 p) as [E2 | R2]; [|by right].
    rewrite E2. apply F1.
Qed.

Lemma touched_insert (m m0 : gmap string node) p r q :
  p ∈ targets ->
  m !! q = m0 !! q \/
  (q ∈ targets /\ ((exists r', m !! q = Some (File (Encoded PNG r'))) \/
                   m !! q = Some (File (Junk [])))) ->
  <[p := File (Encoded PNG r)]> m !! q = m0 !! q \/
  (q ∈ targets /\
   ((exists r', <[p := File (Encoded PNG r)]> m !! q = Some (File (Encoded PNG r'))) \/
    <[p := File (Encoded PNG r)]> m !! q = Some (File (Junk [])))).
Proof.
  intros Hp H. destruct (decide (p = q)) as [<- | Hne].
  - right. split; [done|]. left. exists r. apply lookup_insert_eq.
  - by rewrite lookup_insert_ne.
Qed.

Lemma emptied_lookup p m q :
  emptied p m !! q = m !! q \/ (q = p /\ emptied p m !! q = Some (File (Junk []))).
Proof.
  unfold emptied. destruct (m !! p) eqn:E; [|by left].
  destruct (decide (p = q)) as [<- | Hne].
  - right. split; [done|]. apply lookup_insert_eq.
  - left. by rewrite lookup_insert_ne.
Qed.

Lemma emptied_other p m q : q <> p -> emptied p m !! q = m !! q.
Proof. intros Hne. by destruct (emptied_lookup p m q) as [E | (? & _)]. Qed.


Lemma iteration_advances img s w r w' :
  s ∈ sizes -> iteration img s w = (r, w') -> advances w w'.
Proof.
  intros Hs. rewrite iteration_eval by done.
  pose proof (src_icon_target s Hs) as HA. pose proof (dist_icon_target s Hs) as HB.
  destruct img as [f src | f wd ht x].
  - destruct (write_error (src_icon s) w) as [e1|].
    { intros [= <- <-]. split; [done|]. split; [|by left].
      eexists. split; [reflexivity|]. simpl. by rewrite app_nil_r. }
    destruct (encoder_error PNG src) as [x|].
    { intros [= <- <-]. split; [done|]. split.
      - eexists. split; [reflexivity|]. simpl. by rewrite app_nil_r.
      - intros q. cbn [fs].
        destruct (emptied_lookup (src_icon s) (fs w) q) as [E | (-> & E)];
          [by left | right; split; [exact HA | by right]]. }
    destruct (write_error (dist_icon s) w) as [e2|]; intros [= <- <-].
    + split; [done|]. split; [by eexists|].
      intros q. apply touched_insert; auto.
    + split; [done|]. split; [by eexists|].
      intros q. unfold pass_world, icon_file. cbn [fs].
      do 2 (apply touched_insert; [done|]). by left.
  - intros [= <- <-]. split; [done|]. split; [|by left].
    eexists. split; [reflexivity|]. simpl. by rewrite app_nil_r.
Qed.

Lemma loop_advances img l w r w' :
  Forall (fun s => s ∈ sizes) l ->
  for_each l (iteration img) w = (r, w') -> advances w w'.
Proof.
  intros Hl. revert w. induction Hl as [|s l Hs Hl IH]; intros w.
  { intros [= <- <-]. apply advances_refl. }
  simpl. intros H. apply bind_inv in H as [([] & w1 & H1 & H2) | (e & H1 & ->)].
  - eapply advances_trans; [eapply iteration_advances | eapply IH]; eauto.
  - eapply iteration_advances; eauto.
Qed.

Lemma sizes_in_sizes : Forall (fun s => s ∈ sizes) sizes.
Proof. apply Forall_forall. auto. Qed.

(** ** The [try] body *)

Lemma Image_open_inv p w r w' :
  Image_open p w = (r, w') ->
  w' = log (call_open p) w /\
  match r with
  | Ok (Lazy f src) =>
      fs w !! p = Some (File (Encoded f src)) /\ (p ∉ denied w)
  | Ok (Broken f wd ht e) =>
      fs w !! p = Some (File (Damaged f wd ht e)) /\ (p ∉ denied w)
  | Raise e => True
  end.
Proof.
  unfold Image_open. cbn [fs denied log].
  destruct (fs w !! p) as [[|d]|] eqn:E; try (by intros [= <- <-]).
  case_bool_decide; [by intros [= <- <-]|].
  destruct d as [f pic | f wd ht x | b]; [| |by intros [= <- <-]].
  - destruct (decompression_bomb_check (size pic)); by intros [= <- <-].
  - destruct (decompression_bomb_check (wd, ht)); by intros [= <- <-].
Qed.

(** An image that was opened is within the size limit. *)
Lemma Image_open_within_limit p w f src w' :
  Image_open p w = (Ok (Lazy f src), w') ->
  decompression_bomb_check (size src) = None.
Proof.
  unfold Image_open. cbn [fs denied log].
  destruct (fs w !! p) as [[|d]|] eqn:E; try discriminate.
  case_bool_decide; [discriminate|].
  destruct d as [f' r | f' wd ht x | b]; [| |discriminate].
  - destruct (decompression_bomb_check (size r)) eqn:B; [discriminate|].
    by intros [= _ <- _].
  - destruct (decompression_bomb_check (wd, ht)); discriminate.
Qed.

Lemma Image_open_decodable p f src w :
  fs w !! p = Some (File (Encoded f src)) -> p ∉ denied w ->
  decompression_bomb_check (size src) = None ->
  Image_open p w = (Ok (Lazy f src), log (call_open p) w).
Proof.
  intros E Hd B. unfold Image_open. cbn [fs denied log]. rewrite E, B.
  by rewrite bool_decide_eq_false_2.
Qed.

Lemma Image_open_missing p w :
  fs w !! p = None ->
  Image_open p w =
  (Raise (Exn FileNotFoundError (errno "2" "No such file or directory" p)),
   log (call_open p) w).
Proof. intros E. unfold Image_open. cbn [fs denied log]. by rewrite E. Qed.

Lemma body_advances w r w' : body w = (r, w') -> advances w w'.
Proof.
  unfold body. intros H.
  apply bind_inv in H as [(img & w1 & H1 & H2) | (e & H1 & ->)];
    apply Image_open_inv in H1 as (-> & _).
  - apply (advances_trans _ (log (call_open source_path) w)).
    + split; [done|]. split; [|by left]. exists [call_open source_path].
      split; [done|]. simpl. by rewrite app_nil_r.
    + eapply loop_advances; [apply sizes_in_sizes | eauto].
  - split; [done|]. split; [|by left]. exists [call_open source_path].
    split; [done|]. simpl. by rewrite app_nil_r.
Qed.

(** When the body completes, the source was a decodable image and the
    world is the old one with the six icons written and reported. *)
Lemma body_completed w w' :
  body w = (Ok tt, w') ->
  exists f src,
    fs w !! source_path = Some (File (Encoded f src)) /\ (source_path ∉ denied w) /\
    w' = World (written src sizes (fs w)) (denied w)
           (stdout w ++ saved_lines sizes)
           (calls w ++ call_open source_path :: loop_calls src sizes) /\
    (forall p, p ∈ targets -> write_error p w = None) /\
    decompression_bomb_check (size src) = None /\
    encoder_error PNG src = None.
Proof.
  unfold body. intros H.
  apply bind_inv in H as [(img & w1 & H1 & H2) | (e & H1 & ?)]; [|done].
  pose proof H1 as H1'.
  apply Image_open_inv in H1 as (-> & H1). destruct img as [f src | f wd ht x].
  - destruct H1 as (E & Hd). exists f, src. split; [done|]. split; [done|].
    apply loop_completed in H2 as (-> & Hok & EP); [|apply sizes_in_sizes].
    split; [|split; [|split]].
    + cbn [fs denied stdout calls log]. by rewrite <- app_assoc.
    + intros p (s & Hs & [-> | ->])%elem_of_targets;
        destruct (Hok s Hs) as (HA & HB); rewrite write_error_log in HA, HB;
        [exact HA | exact HB].
    + exact (Image_open_within_limit _ _ _ _ _ H1').
    + by apply EP.
  - unfold sizes in H2. simpl in H2. unfold bind in H2.
    rewrite iteration_eval in H2; [done|]. rewrite elem_of_sizes. auto.
Qed.

Lemma body_total f src w :
  fs w !! source_path = Some (File (Encoded f src)) -> source_path ∉ denied w ->
  decompression_bomb_check (size src) = None ->
  encoder_error PNG src = None ->
  (forall p, p ∈ targets -> write_error p w = None) ->
  body w =
  (Ok tt, World (written src sizes (fs w)) (denied w)
            (stdout w ++ saved_lines sizes)
            (calls w ++ call_open source_path :: loop_calls src sizes)).
Proof.
  intros E Hd B EP Hok. unfold body.
  rewrite (bind_Ok _ _ _ _ _ (Image_open_decodable _ _ _ _ E Hd B)).
  rewrite loop_total; [|apply sizes_in_sizes|exact EP|exact Hok].
  cbn [fs denied stdout calls log]. by rewrite <- app_assoc.
Qed.

(** ** The whole script *)

Lemma run_eq m no :
  run m no =
  match prepare (boot m no) with
  | (Raise e, w0) => (Raise e, w0)
  | (Ok _, w0) =>
      match body w0 with
      | (Ok _, w1) => (Ok tt, w1)
      | (Raise e, w1) => (Ok tt, reported e w1)
      end
  end.
Proof.
  unfold run, process_icons, bind, try_except.
  destruct (prepare (boot m no)) as [[[]|e] w0]; [|done].
  by destruct (body w0) as [[[]|e] w1].
Qed.

Lemma status_Completed m no :
  status m no = Completed <->
  exists w0 w1, prepare (boot m no) = (Ok tt, w0) /\ body w0 = (Ok tt, w1).
Proof.
  split.
  - unfold status. destruct (prepare (boot m no)) as [[[]|e] w0] eqn:Hp; [|done].
    destruct (body w0) as [[[]|e] w1] eqn:Hb; [|done]. intros _. eauto.
  - intros (w0 & w1 & Hp & Hb). unfold status. by rewrite Hp, Hb.
Qed.

Lemma status_Caught m no e :
  status m no = Caught e <->
  exists w0 w1, prepare (boot m no) = (Ok tt, w0) /\ body w0 = (Raise e, w1).
Proof.
  split.
  - unfold status. destruct (prepare (boot m no)) as [[[]|e0] w0] eqn:Hp; [|done].
    destruct (body w0) as [[[]|e1] w1] eqn:Hb; [done|]. intros [= <-]. eauto.
  - intros (w0 & w1 & Hp & Hb). unfold status. by rewrite Hp, Hb.
Qed.

Lemma status_Uncaught m no e :
  status m no = Uncaught e <-> exists w0, prepare (boot m no) = (Raise e, w0).
Proof.
  split.
  - unfold status. destruct (prepare (boot m no)) as [[[]|e0] w0] eqn:Hp.
    + by destruct (body w0) as [[[]|e1] w1].
    + intros [= <-]. eauto.
  - intros (w0 & Hp). unfold status. by rewrite Hp.
Qed.

(** *** The file system stays a tree *)




(** The prepared world of a run: the initial files plus, possibly, new
    directories; nothing printed. *)
Lemma prepared m no r w0 :
  prepare (boot m no) = (r, w0) ->
  denied w0 = no /\ stdout w0 = [] /\ Forall dir_call (calls w0) /\
  (forall p, fs w0 !! p = m !! p \/
             (p ∈ dir_chain /\ m !! p = None /\ fs w0 !! p = Some Dir)).
Proof.
  intros H. apply prepare_spec in H as ((D & O & F) & _ & (cs & C & Fc) & _).
  by rewrite C.
Qed.

Lemma target_not_dir p : p ∈ targets -> p ∉ dir_chain.
Proof.
  intros Hp. pose proof targets_apart as A. rewrite Forall_forall in A.
  by destruct (A p Hp) as (_ & ? & _).
Qed.

Lemma target_not_source p : p ∈ targets -> p <> source_path.
Proof.
  intros Hp. pose proof targets_apart as A. rewrite Forall_forall in A.
  by destruct (A p Hp) as (? & _).
Qed.

Lemma prepared_target m no r w0 p :
  prepare (boot m no) = (r, w0) -> p ∈ targets -> fs w0 !! p = m !! p.
Proof.
  intros H Hp. apply prepared in H as (_ & _ & _ & F).
  destruct (F p) as [E | (Hin & _)]; [done|]. by apply target_not_dir in Hp.
Qed.

Lemma prepared_source m no r w0 :
  prepare (boot m no) = (r, w0) -> fs w0 !! source_path = m !! source_path.
Proof.
  intros H. apply prepared in H as (_ & _ & _ & F).
  destruct (F source_path) as [E | (Hin & _)]; [done|]. by apply source_apart in Hin.
Qed.

Lemma written_target src m p :
  p ∈ targets ->
  exists s, s ∈ sizes /\ written src sizes m !! p = Some (icon_file src s) /\
            (p = src_icon s \/ p = dist_icon s).
Proof.
  intros (s & Hs & Hp)%elem_of_targets. exists s. split; [done|].
  destruct (written_icons src sizes m s sizes_in_sizes Hs) as (HA & HB).
  destruct Hp as [-> | ->]; auto.
Qed.

Lemma written_not_target src m p :
  p ∉ targets -> written src sizes m !! p = m !! p.
Proof.
  intros Hp. apply written_other. intros s Hs.
  split; intros ->; apply Hp; [by apply src_icon_target | by apply dist_icon_target].
Qed.

(** A completed run, in full. *)
Lemma completed_run m no :
  status m no = Completed ->
  exists w0 f src,
    prepare (boot m no) = (Ok tt, w0) /\
    m !! source_path = Some (File (Encoded f src)) /\ (source_path ∉ no) /\
    (forall p, p ∈ targets -> write_error p w0 = None) /\
    run m no =
    (Ok tt, World (written src sizes (fs w0)) no (saved_lines sizes)
              (calls w0 ++ call_open source_path :: loop_calls src sizes)) /\
    decompression_bomb_check (size src) = None /\
    encoder_error PNG src = None.
Proof.
  intros (w0 & w1 & Hp & Hb)%status_Completed.
  destruct (prepared _ _ _ _ Hp) as (D & O & _ & _).
  apply body_completed in Hb as (f & src & E & Hd & -> & Hok & B & EP).
  exists w0, f, src. split; [done|].
  rewrite <- (prepared_source _ _ _ _ Hp). split; [done|].
  split; [by rewrite <- D|]. split; [done|]. split; [|by split].
  rewrite run_eq, Hp.
  rewrite (body_total f src w0 E Hd B EP Hok). by rewrite O, D.
Qed.

(** ** Where a run can stop *)

Lemma saved_lines_app l1 l2 : saved_lines (l1 ++ l2) = saved_lines l1 ++ saved_lines l2.
Proof. unfold saved_lines. apply flat_map_app. Qed.

(** However the loop ends, either some passes have completed and at
    most one more has written its first file, or the PNG writer has
    refused the very first file. *)
Lemma loop_shape img l w r w' :
  Forall (fun s => s ∈ sizes) l ->
  for_each l (iteration img) w = (r, w') ->
  (exists src earlier later next,
    l = earlier ++ later /\
    (r = Ok tt -> later = [] /\ next = None) /\
    (forall s, next = Some s -> exists l', later = s :: l') /\
    ((earlier = [] /\ next = None) \/
     exists f, img = Lazy f src /\ encoder_error PNG src = None) /\
    fs w' = half_pass src next (written src earlier (fs w)) /\
    stdout w' = stdout w ++ saved_lines earlier ++ half_line next /\
    denied w' = denied w) \/
  (exists f src x s l',
    img = Lazy f src /\ l = s :: l' /\
    encoder_error PNG src = Some x /\ r = Raise x /\
    write_error (src_icon s) w = None /\
    fs w' = emptied (src_icon s) (fs w) /\
    stdout w' = stdout w /\ denied w' = denied w).
Proof.
  intros Hl H. destruct img as [f src | f wd ht x].
  - destruct r as [[]|e].
    + apply loop_completed in H as (-> & _ & EP); [|done]. left.
      exists src, l, [], None. rewrite !app_nil_r. cbn [fs stdout denied half_pass].
      repeat split; try done.
      destruct l as [|s l]; [by left | right; exists f; split; [done | by apply EP]].
    + apply for_each_raise in H as (earlier & s & later & w1 & -> & H1 & H2).
      apply Forall_app in Hl as (Hl1 & Hl2). apply Forall_cons in Hl2 as (Hs & _).
      apply loop_completed in H1 as (-> & _ & EP); [|done].
      rewrite iteration_eval in H2 by done. cbn [fs stdout denied calls] in H2.
      destruct (write_error (src_icon s) _) as [e1|] eqn:E1.
      { injection H2 as _ <-. left. exists src, earlier, (s :: later), None.
        cbn [fs stdout denied half_pass half_line]. rewrite app_nil_r.
        repeat split; try done.
        destruct earlier as [|t l]; [by left | right; exists f; split; [done | by apply EP]]. }
      destruct (encoder_error PNG src) as [x|] eqn:Ex.
      { destruct earlier as [|t l]; [|by discriminate EP].
        injection H2 as <- <-. right. exists f, src, x, s, later.
        cbn [app written foldl fs stdout denied] in *. rewrite app_nil_r.
        repeat split; done. }
      destruct (write_error (dist_icon s) _) as [e2|]; [|done].
      injection H2 as _ <-. left. exists src, earlier, (s :: later), (Some s).
      cbn [fs stdout denied half_pass half_line]. rewrite <- app_assoc.
      repeat split; try done.
      * intros s' [= <-]. by exists later.
      * right. by exists f.
  - left. destruct l as [|s l].
    + injection H as <- <-. exists (Picture 1 ModeL 1 1), [], [], None.
      cbn [half_pass half_line written foldl saved_lines flat_map app].
      rewrite app_nil_r. repeat split; try done. by left.
    + apply Forall_cons in Hl as (Hs & _). simpl in H. unfold bind in H.
      rewrite iteration_eval in H by done. injection H as <- <-.
      exists (Picture 1 ModeL 1 1), [], (s :: l), None.
      cbn [half_pass half_line written foldl saved_lines flat_map app fs stdout denied log].
      rewrite app_nil_r. repeat split; try done. by left.
Qed.

(** The same for the whole [try] body: the image could not be opened,
    or the loop went as far as described, or the PNG writer refused the
    first file. *)
Lemma body_shape w r w' :
  body w = (r, w') ->
  (exists src earlier later next,
    sizes = earlier ++ later /\
    (r = Ok tt -> later = [] /\ next = None) /\
    (forall s, next = Some s -> exists l', later = s :: l') /\
    fs w' = half_pass src next (written src earlier (fs w)) /\
    stdout w' = stdout w ++ saved_lines earlier ++ half_line next /\
    denied w' = denied w /\
    ((earlier = [] /\ next = None) \/
     exists f, fs w !! source_path = Some (File (Encoded f src)) /\
               encoder_error PNG src = None)) \/
  (exists f src x,
    fs w !! source_path = Some (File (Encoded f src)) /\
    encoder_error PNG src = Some x /\ r = Raise x /\
    write_error (src_icon 16) w = None /\
    fs w' = emptied (src_icon 16) (fs w) /\
    stdout w' = stdout w /\ denied w' = denied w).
Proof.
  unfold body. intros H.
  apply bind_inv in H as [(img & w1 & H1 & H2) | (e & H1 & ->)];
    apply Image_open_inv in H1 as (-> & H1).
  - destruct (loop_shape _ _ _ _ _ sizes_in_sizes H2)
      as [(src & earlier & later & next & A & B & C & G & D & E & F)
         | (f & src & x & s & l' & -> & [= <- _] & EP & -> & Hw & D & E & F)].
    + left. exists src, earlier, later, next.
      do 6 (split; [done|]).
      destruct G as [G | (f & -> & EP)]; [by left|].
      right. exists f. by destruct H1 as (Hsrc & _).
    + right. destruct H1 as (Hsrc & _). exists f, src, x.
      rewrite write_error_log in Hw. by repeat split.
  - left. exists (Picture 1 ModeL 1 1), [], sizes, None.
    cbn [half_pass half_line written foldl saved_lines flat_map app fs stdout denied log].
    rewrite app_nil_r. repeat split; try done. by left.
Qed.

(** Written icons are PNGs of the source. *)
Lemma icon_insert (m m0 : gmap string node) src s p q :
  s ∈ sizes -> p ∈ targets ->
  m !! q = m0 !! q \/
  (q ∈ targets /\ exists t, t ∈ sizes /\ m !! q = Some (icon_file src t)) ->
  <[p := icon_file src s]> m !! q = m0 !! q \/
  (q ∈ targets /\ exists t, t ∈ sizes /\
     <[p := icon_file src s]> m !! q = Some (icon_file src t)).
Proof.
  intros Hs Hp H. destruct (decide (p = q)) as [<- | Hne].
  - right. split; [done|]. exists s. split; [done|]. apply lookup_insert_eq.
  - by rewrite lookup_insert_ne.
Qed.

Lemma written_lookup src l m p :
  Forall (fun s => s ∈ sizes) l ->
  written src l m !! p = m !! p \/
  (p ∈ targets /\ exists t, t ∈ sizes /\ written src l m !! p = Some (icon_file src t)).
Proof.
  induction l as [|s l IH] using rev_ind; intros Hl; [by left|].
  apply Forall_app in Hl as (Hl & Hs). rewrite Forall_singleton in Hs.
  rewrite written_snoc.
  apply icon_insert; [done | by apply dist_icon_target|].
  apply icon_insert; [done | by apply src_icon_target|]. by apply IH.
Qed.


Lemma png_error_Some r x :
  encoder_error PNG r = Some x <->
  writes PNG (mode_of r) = false /\
  x = Exn OSError ("cannot write mode " +:+ mode_name (mode_of r) +:+ " as PNG").
Proof.
  unfold encoder_error. cbn [has_frames negb orb encoder_name].
  destruct (writes PNG (mode_of r)); split; try done.
  - by intros (? & _).
  - by intros [= <-].
  - by intros (_ & ->).
Qed.

(** What a run leaves at a path: what was there; or a directory it
    created on the way to a destination; or, at an output path, the PNG
    of an icon of the source, whose mode the PNG writer takes; or, at
    the first output path, an empty file in place of the file that was
    there, when the PNG writer refused the source's mode. *)
Lemma run_lookup m no p :
  let final := fs (snd (run m no)) in
  final !! p = m !! p \/
  (p ∈ dir_chain /\ m !! p = None /\ final !! p = Some Dir) \/
  (p ∈ targets /\
   exists f src s,
     m !! source_path = Some (File (Encoded f src)) /\
     encoder_error PNG src = None /\ s ∈ sizes /\
     final !! p = Some (File (Encoded PNG (icon src s)))) \/
  (p = src_icon 16 /\ final !! p = Some (File (Junk [])) /\
   (exists d, m !! p = Some (File d)) /\
   exists f src x,
     m !! source_path = Some (File (Encoded f src)) /\
     encoder_error PNG src = Some x /\ status m no = Caught x).
Proof.
  cbn zeta. rewrite run_eq. unfold status.
  destruct (prepare (boot m no)) as [r0 w0] eqn:Hp.
  destruct (prepared _ _ _ _ Hp) as (_ & _ & _ & F).
  assert (fs w0 !! p = m !! p \/
          (p ∈ dir_chain /\ m !! p = None /\ fs w0 !! p = Some Dir)) as H0 by apply F.
  destruct r0 as [[]|e]; cycle 1.
  { cbn [snd]. destruct H0 as [E0 | D]; [by left | by right; left]. }
  assert (16 ∈ sizes) as H16 by (apply elem_of_sizes; auto).
  pose proof (prepared_source _ _ _ _ Hp) as Es.
  assert (forall r w1, body w0 = (r, w1) ->
            fs w1 !! p = m !! p \/
            (p ∈ dir_chain /\ m !! p = None /\ fs w1 !! p = Some Dir) \/
            (p ∈ targets /\
             exists f src s,
               m !! source_path = Some (File (Encoded f src)) /\
               encoder_error PNG src = None /\ s ∈ sizes /\
               fs w1 !! p = Some (File (Encoded PNG (icon src s)))) \/
            (p = src_icon 16 /\ fs w1 !! p = Some (File (Junk [])) /\
             (exists d, m !! p = Some (File d)) /\
             exists f src x,
               m !! source_path = Some (File (Encoded f src)) /\
               encoder_error PNG src = Some x /\ r = Raise x)) as Hb.
  { intros r w1 Hb.
    destruct (body_shape _ _ _ Hb)
      as [(src & earlier & later & next & Hsz & _ & Hn & Hf & _ & _ & G)
         | (f & src & x & Hsrc & EP & -> & Hw & Hf & _)].
    - assert (Forall (fun s => s ∈ sizes) earlier) as Hall.
      { apply Forall_forall. intros t Ht. rewrite Hsz. apply elem_of_app. by left. }
      assert (fs w1 !! p = fs w0 !! p \/
              (p ∈ targets /\ exists t, t ∈ sizes /\
                 fs w1 !! p = Some (icon_file src t))) as [E | (T & t & Ht & E)].
      { rewrite Hf. destruct next as [s|]; cbn [half_pass].
        - destruct (Hn s eq_refl) as (l' & ->).
          assert (s ∈ sizes) as Hs
            by (rewrite Hsz, elem_of_app; right; apply list_elem_of_here).
          apply icon_insert; [done | by apply src_icon_target | by apply written_lookup].
        - by apply written_lookup. }
      + rewrite E. destruct H0 as [E0 | D]; [by left | by right; left].
      + destruct G as [(-> & ->) | (f & Hsrc & EP)].
        * cbn [half_pass written foldl] in Hf. rewrite Hf.
          destruct H0 as [E0 | D]; [by left | by right; left].
        * right; right; left. split; [done|]. exists f, src, t.
          rewrite Es in Hsrc. by repeat split.
    - rewrite Hf. destruct (emptied_lookup (src_icon 16) (fs w0) p) as [E | (-> & E)].
      + rewrite E. destruct H0 as [E0 | D]; [by left | by right; left].
      + do 3 right. split; [done|]. split; [exact E|].
        rewrite Es in Hsrc. split; [|by exists f, src, x].
        apply write_error_None in Hw as (Hnd & _).
        rewrite <- (prepared_target _ _ _ _ _ Hp (src_icon_target 16 H16)).
        unfold emptied in E. unfold is_dir_in in Hnd.
        destruct (fs w0 !! src_icon 16) as [[|d]|] eqn:E0; [done | by exists d |].
        rewrite E0 in E. discriminate E. }
  destruct (body w0) as [r w1] eqn:E.
  assert (fs (snd (match r with
                   | Ok _ => (Ok tt, w1)
                   | Raise e => (Ok tt, reported e w1)
                   end)) = fs w1) as -> by (by destruct r as [[]|e]).
  destruct (Hb _ _ eq_refl) as [H | [H | [H | (A & B & C & f & src & x & D1 & D2 & ->)]]];
    [by left | by right; left | by right; right; left |].
  do 3 right. split; [done|]. split; [done|]. split; [done|]. by exists f, src, x.
Qed.

(** ** Directory listings *)

Lemma elem_of_listing d m p :
  p ∈ listing d m <-> inside d p /\ is_Some (m !! p).
Proof.
  unfold listing. rewrite elem_of_dom. split.
  - intros (x & (Hx & Hin)%map_lookup_filter_Some). eauto.
  - intros (Hin & x & Hx). exists x. by apply map_lookup_filter_Some.
Qed.

Lemma src_icon_inside s : s ∈ sizes -> inside dest_dir (src_icon s).
Proof.
  intros Hs. split; [by apply src_icon_dirname|].
  intros E. apply (target_not_dir (src_icon s)); [by apply src_icon_target|].
  rewrite E. apply dest_chain_sub, list_elem_of_here.
Qed.

Lemma dist_icon_inside s : s ∈ sizes -> inside dist_dir (dist_icon s).
Proof.
  intros Hs. split; [by apply dist_icon_dirname|].
  intros E. apply (target_not_dir (dist_icon s)); [by apply dist_icon_target|].
  rewrite E. apply dist_chain_sub, list_elem_of_here.
Qed.

Lemma dest_dist_apart : dest_dir <> dist_dir.
Proof. apply (bool_decide_unpack _). by vm_compute. Qed.

Lemma src_icon_outside s : s ∈ sizes -> ~ inside dist_dir (src_icon s).
Proof.
  intros Hs (E & _). rewrite src_icon_dirname in E by done. by apply dest_dist_apart.
Qed.

Lemma dist_icon_outside s : s ∈ sizes -> ~ inside dest_dir (dist_icon s).
Proof.
  intros Hs (E & _). rewrite dist_icon_dirname in E by done. by apply dest_dist_apart.
Qed.

Lemma dir_chain_not_inside d p :
  d = dest_dir \/ d = dist_dir -> p ∈ dir_chain -> ~ inside d p.
Proof.
  intros Hd Hp (E & _). pose proof dir_chain_outside as A.
  rewrite Forall_forall in A. destruct (A p Hp) as (A1 & A2).
  destruct Hd as [-> | ->]; auto.
Qed.

(** After the six icons are written over a prepared world, an icon
    directory lists what it listed before the run plus its icons. *)
Lemma listing_written src d (mine other : Z -> string) m no r w0 :
  prepare (boot m no) = (r, w0) ->
  d = dest_dir \/ d = dist_dir ->
  (forall p, p ∈ targets -> exists s, s ∈ sizes /\ (p = mine s \/ p = other s)) ->
  (forall s, s ∈ sizes -> mine s ∈ targets /\ inside d (mine s)) ->
  (forall s, s ∈ sizes -> ~ inside d (other s)) ->
  listing d (written src sizes (fs w0)) =
  listing d m ∪ list_to_set (map mine sizes).
Proof.
  intros Hp Hd Ht Hmine Hother. apply prepared in Hp as (_ & _ & _ & F).
  apply set_eq. intros p.
  rewrite elem_of_union, !elem_of_listing, elem_of_list_to_set, list_elem_of_In, in_map_iff.
  split.
  - intros (Hin & Hsome). destruct (decide (p ∈ targets)) as [Hpt | Hpt].
    + right. destruct (Ht p Hpt) as (s & Hs & [-> | ->]).
      * exists s. split; [done|]. by apply list_elem_of_In.
      * by apply Hother in Hin.
    + left. split; [done|]. rewrite written_not_target in Hsome by done.
      destruct (F p) as [E | (Hc & _)]; [by rewrite <- E|].
      by apply (dir_chain_not_inside d p) in Hin.
  - intros [(Hin & Hsome) | (s & <- & Hs%list_elem_of_In)].
    + split; [done|]. destruct (decide (p ∈ targets)) as [Hpt | Hpt].
      * destruct (written_target src (fs w0) p Hpt) as (s & _ & -> & _). eauto.
      * rewrite written_not_target by done.
        destruct (F p) as [E | (_ & N & _)]; [by rewrite E|].
        rewrite N in Hsome. by destruct Hsome.
    + destruct (Hmine s Hs) as (Hpt & Hin). split; [done|].
      destruct (written_target src (fs w0) _ Hpt) as (t & _ & -> & _). eauto.
Qed.

Lemma saves_app cs1 cs2 : saves (cs1 ++ cs2) = saves cs1 ++ saves cs2.
Proof. unfold saves. apply flat_map_app. Qed.

Lemma saves_dir_calls cs : Forall dir_call cs -> saves cs = [].
Proof.
  induction 1 as [|c cs (p & [-> | ->]) _ IH]; [done | exact IH | exact IH].
Qed.

Lemma lines_dir_calls cs : Forall dir_call cs -> lines_for_saves cs = [].
Proof.
  induction 1 as [|c cs (p & [-> | ->]) _ IH]; [done | exact IH | exact IH].
Qed.

(** * The claims *)

(** Closed statements about the sample worlds are settled by running
    the script. *)
Ltac by_running :=
  repeat match goal with |- _ /\ _ => split end; vm_compute; reflexivity.


(** ** C1 *)

(** C1, as amended.  After a run in which the [try] body completed (the
    source image was therefore decodable), each of the two destination
    directories lists what it listed before the run together with its
    three files [icon16.png], [icon48.png], [icon128.png]: exactly these
    three when it was empty or absent before.  The file for [size]
    decodes to a [size] x [size] image; the only [save] calls are the
    six for the sizes 16, 48, 128, two per size. *)
Theorem C1_icons_in_both_directories m no :
  status m no = Completed ->
  exists f src,
    m !! source_path = Some (File (Encoded f src)) /\
    let after := fs (snd (run m no)) in
    listing dest_dir after = listing dest_dir m ∪ list_to_set (map src_icon sizes) /\
    listing dist_dir after = listing dist_dir m ∪ list_to_set (map dist_icon sizes) /\
    (listing dest_dir m = ∅ -> listing dest_dir after = list_to_set (map src_icon sizes)) /\
    (listing dist_dir m = ∅ -> listing dist_dir after = list_to_set (map dist_icon sizes)) /\
    (forall s, s ∈ sizes ->
       after !! src_icon s = Some (File (Encoded PNG (icon src s))) /\
       after !! dist_icon s = Some (File (Encoded PNG (icon src s))) /\
       size (icon src s) = (s, s)) /\
    saves (calls (snd (run m no))) =
      [ (16, 16, src_icon 16); (16, 16, dist_icon 16);
        (48, 48, src_icon 48); (48, 48, dist_icon 48);
        (128, 128, src_icon 128); (128, 128, dist_icon 128) ].
Proof.
  intros (w0 & f & src & Hp & Hsrc & _ & _ & Hrun & _)%completed_run.
  exists f, src. split; [done|]. rewrite Hrun. cbn [snd fs calls].
  assert (listing dest_dir (written src sizes (fs w0)) =
          listing dest_dir m ∪ list_to_set (map src_icon sizes)) as L1.
  { apply (listing_written src dest_dir src_icon dist_icon m no (Ok tt) w0);
      [done | by left | | | apply dist_icon_outside].
    - intros p Hpt. by apply elem_of_targets.
    - intros s Hs. split; [by apply src_icon_target | by apply src_icon_inside]. }
  assert (listing dist_dir (written src sizes (fs w0)) =
          listing dist_dir m ∪ list_to_set (map dist_icon sizes)) as L2.
  { apply (listing_written src dist_dir dist_icon src_icon m no (Ok tt) w0);
      [done | by right | | | apply src_icon_outside].
    - intros p (s & Hs & Hor)%elem_of_targets. exists s. tauto.
    - intros s Hs. split; [by apply dist_icon_target | by apply dist_icon_inside]. }
  split; [exact L1|]. split; [exact L2|].
  split; [intros E; rewrite L1, E; apply (left_id_L ∅ (∪))|].
  split; [intros E; rewrite L2, E; apply (left_id_L ∅ (∪))|].
  split.
  - intros s Hs.
    destruct (written_icons src sizes (fs w0) s sizes_in_sizes Hs) as (HA & HB).
    split; [exact HA|]. split; [exact HB|]. apply size_icon.
  - apply prepared in Hp as (_ & _ & Fc & _).
    rewrite saves_app, (saves_dir_calls _ Fc).
    cbn [app saves loop_calls pass_calls sizes flat_map]. by rewrite !size_icon.
Qed.

(** The statement above, on a disk whose [D:] drive is empty: the two
    directories end up holding exactly the three icons each. *)
Lemma C1_icons_in_both_directories_witness :
  status fresh_disk ∅ = Completed /\
  exists f src,
    fresh_disk !! source_path = Some (File (Encoded f src)) /\
    let after := fs (snd (run fresh_disk ∅)) in
    listing dest_dir after = listing dest_dir fresh_disk ∪ list_to_set (map src_icon sizes) /\
    listing dist_dir after = listing dist_dir fresh_disk ∪ list_to_set (map dist_icon sizes) /\
    (listing dest_dir fresh_disk = ∅ -> listing dest_dir after = list_to_set (map src_icon sizes)) /\
    (listing dist_dir fresh_disk = ∅ -> listing dist_dir after = list_to_set (map dist_icon sizes)) /\
    (forall s, s ∈ sizes ->
       after !! src_icon s = Some (File (Encoded PNG (icon src s))) /\
       after !! dist_icon s = Some (File (Encoded PNG (icon src s))) /\
       size (icon src s) = (s, s)) /\
    saves (calls (snd (run fresh_disk ∅))) =
      [ (16, 16, src_icon 16); (16, 16, dist_icon 16);
        (48, 48, src_icon 48); (48, 48, dist_icon 48);
        (128, 128, src_icon 128); (128, 128, dist_icon 128) ].
Proof.
  split; [vm_compute; reflexivity|].
  apply (C1_icons_in_both_directories fresh_disk ∅). vm_compute; reflexivity.
Defined.

(** The claim as stated fails when a destination directory already
    holds something else: the run below completes, and afterwards
    [src\icons] lists four entries, [logo.svg] among them. *)
Lemma C1_counterexample :
  status used_disk ∅ = Completed /\
  used_disk !! source_path = Some (File (Encoded JPEG photo)) /\
  "D:\AI_project\web-scraper\src\icons\logo.svg"
    ∈ listing dest_dir (fs (snd (run used_disk ∅))) /\
  listing dest_dir (fs (snd (run used_disk ∅))) <>
    list_to_set (map src_icon sizes).
Proof.
  split; [vm_compute; reflexivity|]. split; [vm_compute; reflexivity|].
  split; apply (bool_decide_unpack _); vm_compute; reflexivity.
Qed.

(** ** C2 *)

(** What [resize] hands back for the icon of size [s]. *)
Lemma icon_cases src s :
  size (icon src s) = (s, s) /\
  (size src = (s, s) -> icon src s = src) /\
  (size src <> (s, s) ->
   (mode_of src = Mode1 \/ mode_of src = ModeP ->
    icon src s = Resampled src NEAREST s s) /\
   (mode_of src <> Mode1 -> mode_of src <> ModeP ->
    icon src s = Resampled src LANCZOS s s)).
Proof.
  split; [apply size_icon|]. unfold icon, same_size.
  destruct (size src) as [a b]. cbn [fst snd]. split.
  - intros [= -> ->]. by rewrite !Z.eqb_refl.
  - intros Hne.
    assert (((a =? s) && (b =? s))%bool = false) as ->.
    { apply andb_false_iff. destruct (Z.eqb_spec a s) as [-> |]; [|by left].
      right. apply Z.eqb_neq. intros ->. by apply Hne. }
    split; [by intros [-> | ->]|]. intros H1 HP. by destruct (mode_of src).
Qed.

(** C2, as amended.  When the loop runs to its end, the library calls
    after directory preparation are, in this order: open the source;
    then for 16, for 48 and for 128 in turn: one resize to size x size
    that asks for the Lanczos filter, a save of the copy it returned to
    [<dest_dir>\icon<size>.png], its report, a save of the same copy to
    [<dist_dir>\icon<size>.png], its report.  Each save replaces
    whatever the path held.  The copy is size x size.  It is the source
    resampled with the Lanczos filter, with two exceptions that are
    Pillow's: a source that already is size x size is copied without
    resampling, and a bilevel or palette source (mode 1 or P) is
    resampled with the nearest-neighbour filter, whatever filter was
    asked for. *)
Theorem C2_loop_order m no :
  status m no = Completed ->
  exists f src,
    m !! source_path = Some (File (Encoded f src)) /\
    let before := snd (prepare (boot m no)) in
    let after := snd (run m no) in
    calls after = calls before ++
      [ call_open source_path;
        call_resize 16 16 LANCZOS;
        call_save (icon src 16) (src_icon 16) true;
        call_print ("Saved " +:+ src_icon 16);
        call_save (icon src 16) (dist_icon 16) true;
        call_print ("Saved " +:+ dist_icon 16);
        call_resize 48 48 LANCZOS;
        call_save (icon src 48) (src_icon 48) true;
        call_print ("Saved " +:+ src_icon 48);
        call_save (icon src 48) (dist_icon 48) true;
        call_print ("Saved " +:+ dist_icon 48);
        call_resize 128 128 LANCZOS;
        call_save (icon src 128) (src_icon 128) true;
        call_print ("Saved " +:+ src_icon 128);
        call_save (icon src 128) (dist_icon 128) true;
        call_print ("Saved " +:+ dist_icon 128) ] /\
    fs after =
      <[dist_icon 128 := File (Encoded PNG (icon src 128))]>
      (<[src_icon 128 := File (Encoded PNG (icon src 128))]>
      (<[dist_icon 48 := File (Encoded PNG (icon src 48))]>
      (<[src_icon 48 := File (Encoded PNG (icon src 48))]>
      (<[dist_icon 16 := File (Encoded PNG (icon src 16))]>
      (<[src_icon 16 := File (Encoded PNG (icon src 16))]>
         (fs before)))))) /\
    (forall s, s ∈ sizes ->
       size (icon src s) = (s, s) /\
       (size src = (s, s) -> icon src s = src) /\
       (size src <> (s, s) ->
        (mode_of src = Mode1 \/ mode_of src = ModeP ->
         icon src s = Resampled src NEAREST s s) /\
        (mode_of src <> Mode1 -> mode_of src <> ModeP ->
         icon src s = Resampled src LANCZOS s s))) /\
    map src_icon sizes =
      [ "D:\AI_project\web-scraper\src\icons\icon16.png";
        "D:\AI_project\web-scraper\src\icons\icon48.png";
        "D:\AI_project\web-scraper\src\icons\icon128.png" ] /\
    map dist_icon sizes =
      [ "D:\AI_project\web-scraper\dist\icons\icon16.png";
        "D:\AI_project\web-scraper\dist\icons\icon48.png";
        "D:\AI_project\web-scraper\dist\icons\icon128.png" ].
Proof.
  intros (w0 & f & src & Hp & Hsrc & _ & _ & Hrun & _)%completed_run.
  exists f, src. split; [done|]. rewrite Hrun, Hp. cbn [snd fs calls].
  split; [reflexivity|]. split; [reflexivity|].
  split; [intros s _; apply icon_cases|]. split; reflexivity.
Qed.

(** The statement above on a disk where both directories exist and
    [src\icons\icon48.png] holds an older picture, which gets replaced;
    the source is a 512x300 true-colour JPEG, so every icon is a Lanczos
    resampling of it. *)
Lemma C2_loop_order_witness :
  status used_disk ∅ = Completed /\
  exists f src,
    used_disk !! source_path = Some (File (Encoded f src)) /\
    let before := snd (prepare (boot used_disk ∅)) in
    let after := snd (run used_disk ∅) in
    calls after = calls before ++
      [ call_open source_path;
        call_resize 16 16 LANCZOS;
        call_save (icon src 16) (src_icon 16) true;
        call_print ("Saved " +:+ src_icon 16);
        call_save (icon src 16) (dist_icon 16) true;
        call_print ("Saved " +:+ dist_icon 16);
        call_resize 48 48 LANCZOS;
        call_save (icon src 48) (src_icon 48) true;
        call_print ("Saved " +:+ src_icon 48);
        call_save (icon src 48) (dist_icon 48) true;
        call_print ("Saved " +:+ dist_icon 48);
        call_resize 128 128 LANCZOS;
        call_save (icon src 128) (src_icon 128) true;
        call_print ("Saved " +:+ src_icon 128);
        call_save (icon src 128) (dist_icon 128) true;
        call_print ("Saved " +:+ dist_icon 128) ] /\
    fs after =
      <[dist_icon 128 := File (Encoded PNG (icon src 128))]>
      (<[src_icon 128 := File (Encoded PNG (icon src 128))]>
      (<[dist_icon 48 := File (Encoded PNG (icon src 48))]>
      (<[src_icon 48 := File (Encoded PNG (icon src 48))]>
      (<[dist_icon 16 := File (Encoded PNG (icon src 16))]>
      (<[src_icon 16 := File (Encoded PNG (icon src 16))]>
         (fs before)))))) /\
    (forall s, s ∈ sizes ->
       size (icon src s) = (s, s) /\
       (size src = (s, s) -> icon src s = src) /\
       (size src <> (s, s) ->
        (mode_of src = Mode1 \/ mode_of src = ModeP ->
         icon src s = Resampled src NEAREST s s) /\
        (mode_of src <> Mode1 -> mode_of src <> ModeP ->
         icon src s = Resampled src LANCZOS s s))) /\
    map src_icon sizes =
      [ "D:\AI_project\web-scraper\src\icons\icon16.png";
        "D:\AI_project\web-scraper\src\icons\icon48.png";
        "D:\AI_project\web-scraper\src\icons\icon128.png" ] /\
    map dist_icon sizes =
      [ "D:\AI_project\web-scraper\dist\icons\icon16.png";
        "D:\AI_project\web-scraper\dist\icons\icon48.png";
        "D:\AI_project\web-scraper\dist\icons\icon128.png" ].
Proof.
  split; [vm_compute; reflexivity|].
  apply (C2_loop_order used_disk ∅). vm_compute; reflexivity.
Defined.

(** The claim as stated fails for a palette image: the script asks for
    the Lanczos filter, the run completes, and the icons are
    nearest-neighbour resamplings of the source. *)
Lemma C2_counterexample :
  palette_disk !! source_path = Some (File (Encoded PNG sprite)) /\
  status palette_disk ∅ = Completed /\
  call_resize 16 16 LANCZOS ∈ calls (snd (run palette_disk ∅)) /\
  fs (snd (run palette_disk ∅)) !! src_icon 16 =
    Some (File (Encoded PNG (Resampled sprite NEAREST 16 16))) /\
  fs (snd (run palette_disk ∅)) !! dist_icon 16 =
    Some (File (Encoded PNG (Resampled sprite NEAREST 16 16))) /\
  fs (snd (run palette_disk ∅)) !! src_icon 16 <>
    Some (File (Encoded PNG (Resampled sprite LANCZOS 16 16))).
Proof.
  split; [vm_compute; reflexivity|]. split; [vm_compute; reflexivity|].
  split.
  { vm_compute. do 5 apply list_elem_of_further. apply list_elem_of_here. }
  split; [vm_compute; reflexivity|]. split; [vm_compute; reflexivity|].
  intros E. vm_compute in E. discriminate E.
Qed.

(** Nor is a source that already has the size of an icon resampled:
    the icon is a copy of it. *)
Lemma same_size_source_is_copied :
  status small_disk ∅ = Completed /\
  fs (snd (run small_disk ∅)) !! src_icon 48 = Some (File (Encoded PNG thumb)) /\
  fs (snd (run small_disk ∅)) !! src_icon 16 =
    Some (File (Encoded PNG (Resampled thumb LANCZOS 16 16))).
Proof. by_running. Qed.

(** ** C3 *)

(** C3, as amended.  Every exception raised inside the [try] block
    (opening the source, resizing, saving) is caught: the run prints the
    one line [Error processing image: <message>] after whatever it had
    printed, raises nothing, and the process ends with status 0, as it
    does on success.  An exception raised by [os.makedirs] during
    directory preparation is outside the [try] block: it propagates,
    nothing is printed on standard output, and the process ends with
    status 1. *)
Theorem C3_only_try_failures_are_caught m no :
  match status m no with
  | Completed =>
      fst (run m no) = Ok tt /\ exit_status (fst (run m no)) = 0
  | Caught e =>
      exists w0 w1,
        prepare (boot m no) = (Ok tt, w0) /\ body w0 = (Raise e, w1) /\
        run m no = (Ok tt, reported e w1) /\
        stdout (snd (run m no)) = stdout w1 ++ [error_line e] /\
        exit_status (fst (run m no)) = 0
  | Uncaught e =>
      exists w0,
        prepare (boot m no) = (Raise e, w0) /\
        run m no = (Raise e, w0) /\ stdout (snd (run m no)) = [] /\
        exit_status (fst (run m no)) = 1
  end.
Proof.
  destruct (status m no) as [|e|e] eqn:S.
  - apply status_Completed in S as (w0 & w1 & Hp & Hb).
    by rewrite run_eq, Hp, Hb.
  - apply status_Caught in S as (w0 & w1 & Hp & Hb).
    exists w0, w1. by rewrite run_eq, Hp, Hb.
  - apply status_Uncaught in S as (w0 & Hp). exists w0.
    rewrite run_eq, Hp. cbn [fst snd].
    destruct (prepared _ _ _ _ Hp) as (_ & O & _). by rewrite O.
Qed.

(** The claim as stated fails for a failure while creating a
    destination directory: here the OS refuses to create
    [D:\AI_project]; the [PermissionError] leaves the script uncaught,
    nothing is printed, and the exit status is 1. *)
Lemma C3_counterexample :
  fst (run fresh_disk locked) =
    Raise (Exn PermissionError "[WinError 5] Access is denied: 'D:\\AI_project'") /\
  stdout (snd (run fresh_disk locked)) = [] /\
  exit_status (fst (run fresh_disk locked)) = 1.
Proof. by_running. Qed.

(** ** C4 *)

Lemma listing_prepared m no r w0 d :
  prepare (boot m no) = (r, w0) -> d = dest_dir \/ d = dist_dir ->
  listing d (fs w0) = listing d m.
Proof.
  intros Hp Hd. apply prepared in Hp as (_ & _ & _ & F).
  apply set_eq. intros p. rewrite !elem_of_listing.
  split; intros (Hin & Hsome); (split; [done|]);
    destruct (F p) as [E | (Hc & N & D)].
  - by rewrite <- E.
  - by apply (dir_chain_not_inside d p) in Hin.
  - by rewrite E.
  - rewrite N in Hsome. by destruct Hsome.
Qed.

Lemma prepared_files m no r w0 p d :
  prepare (boot m no) = (r, w0) ->
  fs w0 !! p = Some (File d) <-> m !! p = Some (File d).
Proof.
  intros Hp. apply prepared in Hp as (_ & _ & _ & F).
  destruct (F p) as [E | (_ & N & D)]; [by rewrite E|].
  rewrite N, D. split; discriminate.
Qed.

(** C4, as amended.  If the source path does not exist and directory
    preparation does not raise, then the run raises nothing, its whole
    output is the one line
    [Error processing image: [Errno 2] No such file or directory: '<source>']
    (which starts with the word "Error"), and no file has been created
    or changed anywhere: in particular both destination directories
    list what they listed before. *)
Theorem C4_missing_source m no :
  m !! source_path = None ->
  fst (prepare (boot m no)) = Ok tt ->
  let after := snd (run m no) in
  fst (run m no) = Ok tt /\
  stdout after =
    [ "Error processing image: " +:+
      errno "2" "No such file or directory" source_path ] /\
  Forall (fun line => String.prefix "Error" line = true) (stdout after) /\
  (forall p d, fs after !! p = Some (File d) <-> m !! p = Some (File d)) /\
  listing dest_dir (fs after) = listing dest_dir m /\
  listing dist_dir (fs after) = listing dist_dir m.
Proof.
  intros Hsrc Hp. apply pair_fst in Hp.
  set (w0 := snd (prepare (boot m no))) in Hp.
  assert (body w0 =
          (Raise (Exn FileNotFoundError
                    (errno "2" "No such file or directory" source_path)),
           log (call_open source_path) w0)) as Hb.
  { unfold body. apply bind_Raise, Image_open_missing.
    by rewrite (prepared_source _ _ _ _ Hp). }
  rewrite run_eq, Hp, Hb. cbn [fst snd reported fs stdout log].
  destruct (prepared _ _ _ _ Hp) as (_ & -> & _).
  split; [done|]. split; [done|]. split; [by repeat constructor|].
  split; [intros p d; by apply (prepared_files m no (Ok tt))|].
  split; apply (listing_prepared m no (Ok tt)); auto.
Qed.

(** The statement above on a disk without the source image. *)
Lemma C4_missing_source_witness :
  no_source_disk !! source_path = None /\
  fst (prepare (boot no_source_disk ∅)) = Ok tt /\
  let after := snd (run no_source_disk ∅) in
  fst (run no_source_disk ∅) = Ok tt /\
  stdout after =
    [ "Error processing image: " +:+
      errno "2" "No such file or directory" source_path ] /\
  Forall (fun line => String.prefix "Error" line = true) (stdout after) /\
  (forall p d, fs after !! p = Some (File d) <-> no_source_disk !! p = Some (File d)) /\
  listing dest_dir (fs after) = listing dest_dir no_source_disk /\
  listing dist_dir (fs after) = listing dist_dir no_source_disk.
Proof.
  split; [vm_compute; reflexivity|]. split; [vm_compute; reflexivity|].
  apply (C4_missing_source no_source_disk ∅); vm_compute; reflexivity.
Defined.

(** Other failures inside the [try] block end the same way: a
    zero-byte source is rejected by [Image.open], a truncated one by the
    first [resize]; nothing is written in either case. *)
Lemma corrupt_sources_are_reported :
  status empty_source_disk ∅ =
    Caught (Exn UnidentifiedImageError
              ("cannot identify image file " +:+ Path.repr source_path)) /\
  status truncated_source_disk ∅ =
    Caught (Exn OSError "image file is truncated (0 bytes not processed)") /\
  listing dest_dir (fs (snd (run empty_source_disk ∅))) = ∅ /\
  listing dist_dir (fs (snd (run empty_source_disk ∅))) = ∅ /\
  listing dest_dir (fs (snd (run truncated_source_disk ∅))) = ∅ /\
  listing dist_dir (fs (snd (run truncated_source_disk ∅))) = ∅.
Proof. by_running. Qed.

(** The claim as stated fails when the source is missing and a
    destination directory cannot be created: the exception from
    [os.makedirs] escapes uncaught and no message is printed. *)
Lemma C4_counterexample :
  no_source_disk !! source_path = None /\
  fst (run no_source_disk locked) =
    Raise (Exn PermissionError "[WinError 5] Access is denied: 'D:\\AI_project'") /\
  stdout (snd (run no_source_disk locked)) = [].
Proof. by_running. Qed.

(** ** C5 *)

Lemma sizes_NoDup : NoDup sizes.
Proof. apply (bool_decide_unpack _). by vm_compute. Qed.

Lemma resized_app cs1 cs2 : resized (cs1 ++ cs2) = resized cs1 ++ resized cs2.
Proof. unfold resized. apply flat_map_app. Qed.

Lemma resized_dir_calls cs : Forall dir_call cs -> resized cs = [].
Proof.
  induction 1 as [|c cs (p & [-> | ->]) _ IH]; [done | exact IH | exact IH].
Qed.

Lemma resized_loop_calls src l : resized (loop_calls src l) = l.
Proof. induction l as [|s l IH]; [done|]. simpl. by rewrite IH. Qed.

Lemma saves_loop_calls src l sz p :
  (sz, p) ∈ saves (loop_calls src l) ->
  exists d, d ∈ l /\ (p = src_icon d \/ p = dist_icon d).
Proof.
  induction l as [|s l IH]; simpl; [by intros ?%elem_of_nil|].
  rewrite !elem_of_cons. intros [[= _ ->] | [[= _ ->] | H]].
  - exists s. split; [by left | by left].
  - exists s. split; [by left | by right].
  - destruct (IH H) as (d & Hd & Hp). exists d. split; [by right | done].
Qed.

(** What a pass that raises leaves behind. *)
Lemma iteration_raised img s w e w' :
  s ∈ sizes -> iteration img s w = (Raise e, w') ->
  denied w' = denied w /\
  (exists cs, calls w' = calls w ++ cs /\ resized cs = [s] /\
     forall sz p, (sz, p) ∈ saves cs -> p = src_icon s \/ p = dist_icon s) /\
  (fs w' = fs w \/
   (exists f src, img = Lazy f src /\ fs w' = <[src_icon s := icon_file src s]> (fs w)) \/
   fs w' = emptied (src_icon s) (fs w)).
Proof.
  intros Hs. rewrite iteration_eval by done. destruct img as [f src | f wd ht x].
  - destruct (write_error (src_icon s) w) as [e1|].
    { intros [= <- <-]. split; [done|]. split; [|by left].
      eexists. split; [reflexivity|]. split; [done|].
      simpl. intros sz p [[= _ ->] | ?%elem_of_nil]%elem_of_cons; by auto. }
    destruct (encoder_error PNG src) as [x|].
    { intros [= <- <-]. split; [done|]. split; [|by right; right].
      eexists. split; [reflexivity|]. split; [done|].
      simpl. intros sz p [[= _ ->] | ?%elem_of_nil]%elem_of_cons; by auto. }
    destruct (write_error (dist_icon s) w) as [e2|]; [|done].
    intros [= <- <-]. split; [done|]. split; [|right; left; by exists f, src].
    eexists. split; [reflexivity|]. split; [done|]. simpl. intros sz p.
    rewrite !elem_of_cons. intros [[= _ ->] | [[= _ ->] | ?%elem_of_nil]]; by auto.
  - intros [= <- <-]. split; [done|]. split; [|by left].
    eexists. split; [reflexivity|]. split; [done|].
    simpl. by intros sz p ?%elem_of_nil.
Qed.

Lemma icons_apart a b :
  a ∈ sizes -> b ∈ sizes -> a <> b ->
  src_icon a <> src_icon b /\ src_icon a <> dist_icon b /\
  dist_icon a <> src_icon b /\ dist_icon a <> dist_icon b.
Proof.
  intros Ha Hb Hne. split; [|split; [|split]].
  - intros E. by apply src_icon_inj in E.
  - by apply src_dist_apart.
  - apply not_eq_sym. by apply src_dist_apart.
  - intros E. by apply dist_icon_inj in E.
Qed.

(** The passes that completed, whatever the image object was. *)
Lemma loop_prefix_completed img earlier w1 w2 :
  Forall (fun s => s ∈ sizes) earlier ->
  for_each earlier (iteration img) w1 = (Ok tt, w2) ->
  exists src,
    (earlier = [] \/ exists f, img = Lazy f src) /\
    w2 = World (written src earlier (fs w1)) (denied w1)
           (stdout w1 ++ saved_lines earlier) (calls w1 ++ loop_calls src earlier).
Proof.
  intros Hl H. destruct img as [f src | f wd ht].
  - exists src. split; [right; by exists f|]. by apply loop_completed in H as (-> & _).
  - destruct earlier as [|s l].
    + injection H as <-. exists (Picture 1 ModeL 1 1). split; [by left|].
      destruct w1; simpl. by rewrite !app_nil_r.
    + apply Forall_cons in Hl as (Hs & _). simpl in H. unfold bind in H.
      by rewrite iteration_eval in H.
Qed.

(** C5.  Suppose directory preparation and opening the source went
    through, the passes for the sizes [earlier] completed, and the pass
    for [s] raised [e], with the sizes [later] still to come.  Then the
    run consists of what had happened up to that point followed by the
    error report, and nothing else: the passes started are exactly those
    for [earlier] and [s]; no [save] call concerns a file of a later
    size, and those paths hold what they held before the run; and both
    files of every earlier size are on disk with their icons. *)
Theorem C5_failure_aborts_loop m no img earlier s later e :
  let w0 := snd (prepare (boot m no)) in
  let w1 := snd (Image_open source_path w0) in
  let w2 := snd (for_each earlier (iteration img) w1) in
  let w3 := snd (iteration img s w2) in
  fst (prepare (boot m no)) = Ok tt ->
  fst (Image_open source_path w0) = Ok img ->
  sizes = earlier ++ s :: later ->
  fst (for_each earlier (iteration img) w1) = Ok tt ->
  fst (iteration img s w2) = Raise e ->
  let final := snd (run m no) in
  run m no = (Ok tt, reported e w3) /\
  resized (calls final) = earlier ++ [s] /\
  (forall sz p, (sz, p) ∈ saves (calls final) ->
     exists d, d ∈ earlier ++ [s] /\ (p = src_icon d \/ p = dist_icon d)) /\
  (forall r, r ∈ later ->
     fs final !! src_icon r = m !! src_icon r /\
     fs final !! dist_icon r = m !! dist_icon r) /\
  (exists src, forall d, d ∈ earlier ->
     fs final !! src_icon d = Some (File (Encoded PNG (icon src d))) /\
     fs final !! dist_icon d = Some (File (Encoded PNG (icon src d)))).
Proof.
  intros w0 w1 w2 w3 Hp Hopen Hsz Hearlier Hs.
  apply pair_fst in Hp, Hopen, Hearlier, Hs.
  fold w0 in Hp. fold w1 in Hopen. fold w2 in Hearlier. fold w3 in Hs.
  clearbody w0 w1 w2 w3.
  assert (forall x, x ∈ earlier ++ s :: later -> x ∈ sizes) as Hin
    by (intros x; by rewrite Hsz).
  assert (Forall (fun x => x ∈ sizes) earlier) as Hall.
  { apply Forall_forall. intros x Hx. apply Hin, elem_of_app. by left. }
  assert (s ∈ sizes) as Hss.
  { apply Hin, elem_of_app. right. apply list_elem_of_here. }
  pose proof sizes_NoDup as Hnd. rewrite Hsz in Hnd.
  apply NoDup_app in Hnd as (_ & Hdisj & Hnd2). apply NoDup_cons in Hnd2 as (Hsl & _).
  assert (body w0 = (Raise e, w3)) as Hb.
  { unfold body. rewrite (bind_Ok _ _ _ _ _ Hopen), Hsz.
    by apply (for_each_abort earlier later s _ w1 w2). }
  rewrite run_eq, Hp, Hb. cbn [snd reported fs calls].
  split; [done|].
  apply Image_open_inv in Hopen as (-> & _).
  destruct (loop_prefix_completed _ _ _ _ Hall Hearlier) as (src & Himg & ->).
  destruct (iteration_raised _ _ _ _ _ Hss Hs) as (_ & (cs & C & R & S) & F).
  cbn [fs calls log] in C, F.
  assert (forall p, p <> src_icon s ->
            fs w3 !! p = written src earlier (fs w0) !! p) as Hsame.
  { intros p Hne. destruct F as [-> | [(f & src' & _ & ->) | ->]].
    - reflexivity.
    - by rewrite lookup_insert_ne by (by apply not_eq_sym).
    - by apply emptied_other. }
  destruct (prepared _ _ _ _ Hp) as (_ & _ & Fc & _).
  split; [|split; [|split]].
  - rewrite C, !resized_app, R, resized_loop_calls, (resized_dir_calls _ Fc).
    simpl. by rewrite app_nil_r.
  - intros sz p. rewrite C, !saves_app, (saves_dir_calls _ Fc). simpl.
    rewrite !elem_of_app. intros [[H | H] | H].
    + apply saves_loop_calls in H as (d & Hd & Hor).
      exists d. split; [apply elem_of_app; by left | done].
    + exists s. split; [|by apply (S sz)].
      apply elem_of_app. right. apply list_elem_of_here.
    + by apply elem_of_nil in H.
  - intros r Hr.
    assert (r ∈ sizes) as Hrs
      by (apply Hin, elem_of_app; right; by apply elem_of_cons; right).
    assert (s <> r) as Hsr by (intros ->; done).
    destruct (icons_apart s r Hss Hrs Hsr) as (A1 & A2 & _).
    assert (forall p, p = src_icon r \/ p = dist_icon r ->
                      written src earlier (fs w0) !! p = m !! p) as Hw.
    { intros p Hpr. rewrite written_other.
      - apply (prepared_target m no (Ok tt) w0 p Hp).
        destruct Hpr as [-> | ->]; [by apply src_icon_target | by apply dist_icon_target].
      - intros d Hd.
        assert (r <> d).
        { intros ->. apply (Hdisj d Hd). by apply elem_of_cons; right. }
        assert (d ∈ sizes) as Hds by (eapply Forall_forall in Hall; eauto).
        destruct (icons_apart r d Hrs Hds) as (B1 & B2 & B3 & B4); [done|].
        by destruct Hpr as [-> | ->]. }
    rewrite !Hsame by (by apply not_eq_sym). split; apply Hw; auto.
  - exists src. intros d Hd.
    assert (d ∈ sizes) as Hds by (eapply Forall_forall in Hall; eauto).
    assert (s <> d) as Hsd.
    { intros ->. apply (Hdisj d Hd). apply list_elem_of_here. }
    destruct (icons_apart s d Hss Hds Hsd) as (A1 & A2 & _).
    destruct (written_icons src earlier (fs w0) d Hall Hd) as (WA & WB).
    rewrite !Hsame by (by apply not_eq_sym). by split.
Qed.

(** The statement above on a disk where [dist\icons\icon48.png] is a
    directory: the pass for 16 completes, the pass for 48 fails on its
    second save, the pass for 128 never starts. *)
Lemma C5_failure_aborts_loop_witness :
  let img := Lazy JPEG photo in
  let e := Exn PermissionError (errno "13" "Permission denied" (dist_icon 48)) in
  let w0 := snd (prepare (boot blocked_disk ∅)) in
  let w1 := snd (Image_open source_path w0) in
  let w2 := snd (for_each [16] (iteration img) w1) in
  let w3 := snd (iteration img 48 w2) in
  (fst (prepare (boot blocked_disk ∅)) = Ok tt /\
   fst (Image_open source_path w0) = Ok img /\
   sizes = [16] ++ 48 :: [128] /\
   fst (for_each [16] (iteration img) w1) = Ok tt /\
   fst (iteration img 48 w2) = Raise e) /\
  let final := snd (run blocked_disk ∅) in
  run blocked_disk ∅ = (Ok tt, reported e w3) /\
  resized (calls final) = [16] ++ [48] /\
  (forall sz p, (sz, p) ∈ saves (calls final) ->
     exists d, d ∈ [16] ++ [48] /\ (p = src_icon d \/ p = dist_icon d)) /\
  (forall r, r ∈ [128] ->
     fs final !! src_icon r = blocked_disk !! src_icon r /\
     fs final !! dist_icon r = blocked_disk !! dist_icon r) /\
  (exists src, forall d, d ∈ [16] ->
     fs final !! src_icon d = Some (File (Encoded PNG (icon src d))) /\
     fs final !! dist_icon d = Some (File (Encoded PNG (icon src d)))).
Proof.
  intros img e w0 w1 w2 w3.
  split; [by_running|].
  apply (C5_failure_aborts_loop blocked_disk ∅ img [16] 48 [128] e);
    vm_compute; reflexivity.
Defined.

(** ** C6 *)



(** The sample disks are trees. *)
Lemma sample_disks_are_trees :
  tree fresh_disk /\ tree no_source_disk /\ tree used_disk /\
  tree file_in_the_way /\ tree blocked_disk.
Proof.
  repeat match goal with |- _ /\ _ => split end;
    apply (bool_decide_unpack _); vm_compute; reflexivity.
Qed.




(** ** C7 *)

Lemma dir_not_target p : p ∈ dir_chain -> p ∉ targets.
Proof. intros Hp Ht. by apply target_not_dir in Ht. Qed.

Lemma source_not_target : source_path ∉ targets.
Proof. intros Ht. by apply target_not_source in Ht. Qed.





(** ** C8 *)

(** C8, as amended.  Standard output is a sequence of lines: one line
    [Saved <path>] for each save that succeeded, in the order of the
    saves, followed, when the [try] body raised [e], by the one line
    [Error processing image: <message of e>], and nothing else.  A run
    that completes prints exactly the six [Saved] lines.  A run in
    which creating a destination directory fails prints nothing: that
    failure happens outside the [try] block. *)
Theorem C8_standard_output m no :
  let final := snd (run m no) in
  stdout final =
    lines_for_saves (calls final) ++
    match status m no with
    | Caught e => [error_line e]
    | _ => []
    end /\
  match status m no with
  | Completed =>
      stdout final = map (fun p => "Saved " +:+ p) targets /\
      length (stdout final) = 6%nat
  | Caught _ => True
  | Uncaught _ => stdout final = []
  end.
Proof.
  cbn zeta. destruct (status m no) as [|e|e] eqn:S.
  - apply completed_run in S as (w0 & f & src & Hp & _ & _ & _ & Hrun & _).
    rewrite Hrun. cbn [snd stdout calls].
    destruct (prepared _ _ _ _ Hp) as (_ & _ & Fc & _).
    rewrite lines_for_saves_app, (lines_dir_calls _ Fc), app_nil_r.
    repeat split; reflexivity.
  - apply status_Caught in S as (w0 & w1 & Hp & Hb).
    rewrite run_eq, Hp, Hb. cbn [snd reported stdout calls].
    destruct (prepared _ _ _ _ Hp) as (_ & O & Fc & _).
    destruct (body_advances _ _ _ Hb) as (_ & (cs & C & Ob) & _).
    rewrite C, Ob, O, !lines_for_saves_app, (lines_dir_calls _ Fc).
    split; [|done]. simpl. by rewrite app_nil_r.
  - apply status_Uncaught in S as (w0 & Hp).
    rewrite run_eq, Hp. cbn [snd].
    destruct (prepared _ _ _ _ Hp) as (_ & O & Fc & _).
    by rewrite O, (lines_dir_calls _ Fc).
Qed.

(** The claim as stated fails when a destination directory cannot be
    created: the run fails, and no line is printed at all. *)
Lemma C8_counterexample :
  status fresh_disk locked =
    Uncaught (Exn PermissionError "[WinError 5] Access is denied: 'D:\\AI_project'") /\
  exit_status (fst (run fresh_disk locked)) = 1 /\
  stdout (snd (run fresh_disk locked)) = [].
Proof. by_running. Qed.

(** For instance, when [dist\icons\icon48.png] cannot be written, three
    saves succeed before the fourth fails. *)
Lemma output_on_blocked_disk :
  stdout (snd (run blocked_disk ∅)) =
  [ "Saved D:\AI_project\web-scraper\src\icons\icon16.png";
    "Saved D:\AI_project\web-scraper\dist\icons\icon16.png";
    "Saved D:\AI_project\web-scraper\src\icons\icon48.png";
    "Error processing image: [Errno 13] Permission denied: 'D:\\AI_project\\web-scraper\\dist\\icons\\icon48.png'" ].
Proof. by_running. Qed.

(** ** C9 *)

Lemma body_calls w r w' :
  body w = (r, w') -> exists rest, calls w' = calls w ++ call_open source_path :: rest.
Proof.
  unfold body. intros H.
  apply bind_inv in H as [(img & w1 & H1 & H2) | (e & H1 & ->)];
    apply Image_open_inv in H1 as (-> & _).
  - apply loop_advances in H2 as (_ & (cs & C & _) & _); [|apply sizes_in_sizes].
    exists cs. rewrite C. cbn [calls log]. by rewrite <- app_assoc.
  - by exists [].
Qed.

(** C9, as amended.  Directory preparation comes first and is not part
    of the [try] block.  In every run in which it does not raise, the
    calls it makes precede the opening of the source image, and whatever
    happens afterwards (in particular a missing or corrupt source) the
    run raises nothing and both destination paths are, at the end, what
    preparation left there: they exist, and each is a directory if it
    was absent or a directory before the run. *)
Theorem C9_directories_outlive_image_failures m no :
  fst (prepare (boot m no)) = Ok tt ->
  let prepared_fs := fs (snd (prepare (boot m no))) in
  let final := snd (run m no) in
  fst (run m no) = Ok tt /\
  (forall d, d = dest_dir \/ d = dist_dir ->
     exists_in d (fs final) = true /\
     fs final !! d = prepared_fs !! d /\
     (m !! d = None \/ m !! d = Some Dir -> is_dir_in d (fs final) = true)) /\
  (exists rest,
     calls final =
     calls (snd (prepare (boot m no))) ++ call_open source_path :: rest) /\
  Forall dir_call (calls (snd (prepare (boot m no)))).
Proof.
  intros Hp%pair_fst. set (w0 := snd (prepare (boot m no))) in *. cbn zeta.
  destruct (prepare_spec _ _ _ Hp) as (G & _ & _ & D). specialize (D eq_refl).
  destruct (prepared _ _ _ _ Hp) as (_ & _ & Fc & _).
  assert (exists r w1, body w0 = (r, w1) /\ fst (run m no) = Ok tt /\
                       fs (snd (run m no)) = fs w1 /\
                       exists rest, calls (snd (run m no)) =
                                    calls w0 ++ call_open source_path :: rest)
    as (r & w1 & Hb & Hr & Hf & Hc).
  { rewrite run_eq, Hp. destruct (body w0) as [[[]|e] w1] eqn:Hb.
    - exists (Ok tt), w1. repeat split; try done. by apply body_calls in Hb.
    - exists (Raise e), w1. repeat split; try done.
      apply body_calls in Hb as (rest & C). cbn [snd reported calls].
      exists (rest ++ [call_print (error_line e)]). rewrite C.
      by rewrite <- app_assoc. }
  split; [exact Hr|]. split; [|split; [exact Hc | exact Fc]].
  intros d Hd. rewrite Hf.
  assert (fs w1 !! d = fs w0 !! d) as Eq.
  { destruct (body_advances _ _ _ Hb) as (_ & _ & F).
    destruct (F d) as [E | (Ht & _)]; [exact E|].
    exfalso. revert Ht. apply dir_not_target.
    destruct Hd as [-> | ->];
      [apply dest_chain_sub | apply dist_chain_sub]; apply list_elem_of_here. }
  destruct (D d Hd) as (E & N).
  split; [unfold exists_in in *; by rewrite Eq|]. split; [exact Eq|].
  unfold is_dir_in. rewrite Eq. intros [Hn | Hdir].
  - by destruct (N Hn) as (N1 & _).
  - apply (grows_is_dir _ _ _ d G). unfold is_dir_in. cbn [fs boot]. by rewrite Hdir.
Qed.

(** The statement above on a disk without the source image. *)
Lemma C9_directories_outlive_image_failures_witness :
  fst (prepare (boot no_source_disk ∅)) = Ok tt /\
  let prepared_fs := fs (snd (prepare (boot no_source_disk ∅))) in
  let final := snd (run no_source_disk ∅) in
  fst (run no_source_disk ∅) = Ok tt /\
  (forall d, d = dest_dir \/ d = dist_dir ->
     exists_in d (fs final) = true /\
     fs final !! d = prepared_fs !! d /\
     (no_source_disk !! d = None \/ no_source_disk !! d = Some Dir -> is_dir_in d (fs final) = true)) /\
  (exists rest,
     calls final =
     calls (snd (prepare (boot no_source_disk ∅))) ++ call_open source_path :: rest) /\
  Forall dir_call (calls (snd (prepare (boot no_source_disk ∅)))).
Proof.
  split; [vm_compute; reflexivity|].
  apply (C9_directories_outlive_image_failures no_source_disk ∅).
  vm_compute; reflexivity.
Defined.

(** The claim as stated fails for a run in which a destination directory
    cannot be created: the exception ends the run before the image is
    even opened, and neither directory exists afterwards. *)
Lemma C9_counterexample :
  exists_in dest_dir (fs (snd (run fresh_disk locked))) = false /\
  exists_in dist_dir (fs (snd (run fresh_disk locked))) = false /\
  exit_status (fst (run fresh_disk locked)) = 1.
Proof. by_running. Qed.

(** ** C10 *)





(** * Further properties of the script *)

(** ** X1: what a run leaves alone *)

(** X1.  Whatever happens in a run, nothing is deleted: every path that
    existed still exists.  A path other than the six output files holds
    exactly what it held before, unless it was missing and is one of the
    directories leading to the two destinations, which may have been
    created.  An output file is either as before or a PNG, with one
    exception: when the source is an image in a mode the PNG writer
    refuses, the first output file, if it existed, is left empty.  The
    source image itself is never changed. *)
Theorem X1_run_frame m no :
  let final := fs (snd (run m no)) in
  (forall p, is_Some (m !! p) -> is_Some (final !! p)) /\
  (forall p, p ∉ targets ->
     final !! p = m !! p \/
     (p ∈ dir_chain /\ m !! p = None /\ final !! p = Some Dir)) /\
  (forall p, p ∈ targets ->
     final !! p = m !! p \/
     (exists r, final !! p = Some (File (Encoded PNG r))) \/
     (p = src_icon 16 /\ final !! p = Some (File (Junk [])) /\
      (exists d, m !! p = Some (File d)) /\
      exists f src,
        m !! source_path = Some (File (Encoded f src)) /\
        writes PNG (mode_of src) = false)) /\
  final !! source_path = m !! source_path.
Proof.
  cbn zeta. assert (16 ∈ sizes) as H16 by (apply elem_of_sizes; auto).
  split; [|split; [|split]].
  - intros p (x & Hx).
    destruct (run_lookup m no p)
      as [E | [(_ & N & _) | [(_ & f & src & s & _ & _ & _ & E) | (_ & E & _)]]].
    + rewrite E. eauto.
    + congruence.
    + rewrite E. eauto.
    + rewrite E. eauto.
  - intros p Hp.
    destruct (run_lookup m no p) as [E | [D | [(T & _) | (-> & _)]]];
      [by left | by right | done |].
    exfalso. apply Hp. by apply src_icon_target.
  - intros p Hp.
    destruct (run_lookup m no p)
      as [E | [(D & _) | [(_ & f & src & s & _ & _ & _ & E)
                         | (-> & E & D0 & f & src & x & A & B & _)]]].
    + by left.
    + by apply target_not_dir in Hp.
    + right; left. by eexists.
    + right; right. split; [done|]. split; [exact E|]. split; [exact D0|].
      exists f, src. split; [exact A|]. by apply png_error_Some in B as (B & _).
  - destruct (run_lookup m no source_path)
      as [E | [(D & _) | [(T & _) | (E & _)]]]; [done | | |].
    + by apply source_apart in D.
    + by apply source_not_target in T.
    + exfalso. apply (target_not_source (src_icon 16)); [by apply src_icon_target | done].
Qed.

(** The statement above on a disk that already holds icons and another
    file. *)
Lemma X1_run_frame_witness :
  let final := fs (snd (run used_disk ∅)) in
  (forall p, is_Some (used_disk !! p) -> is_Some (final !! p)) /\
  (forall p, p ∉ targets ->
     final !! p = used_disk !! p \/
     (p ∈ dir_chain /\ used_disk !! p = None /\ final !! p = Some Dir)) /\
  (forall p, p ∈ targets ->
     final !! p = used_disk !! p \/
     (exists r, final !! p = Some (File (Encoded PNG r))) \/
     (p = src_icon 16 /\ final !! p = Some (File (Junk [])) /\
      (exists d, used_disk !! p = Some (File d)) /\
      exists f src,
        used_disk !! source_path = Some (File (Encoded f src)) /\
        writes PNG (mode_of src) = false)) /\
  final !! source_path = used_disk !! source_path.
Proof. exact (X1_run_frame used_disk ∅). Defined.

(** The exception at work: a CMYK source empties the first icon of an
    earlier build and changes nothing else. *)
Lemma cmyk_source_empties_first_icon :
  fs (snd (run cmyk_disk ∅)) = <[ src_icon 16 := File (Junk []) ]> cmyk_disk.
Proof. by_running. Qed.

(** ** X2: when a run is sure to complete *)



(** ** X3: the file system stays a tree *)



(** ** X4: the calls a run can make *)

Lemma ensure_calls d w r w' :
  d = dest_dir \/ d = dist_dir ->
  ensure d w = (r, w') ->
  exists cs, calls w' = calls w ++ cs /\ Forall prep_call cs.
Proof.
  intros Hd. unfold ensure, bind, os_path_exists.
  destruct (exists_in d (fs w)); cbn [negb].
  - intros [= <- <-]. exists [call_exists d]. split; [done|].
    repeat constructor. exists d. auto.
  - unfold os_makedirs. intros H. apply makedirs_chain_spec in H as (_ & C & _).
    exists [call_exists d; call_makedirs d]. split.
    + rewrite C. cbn [calls log]. by rewrite <- app_assoc.
    + repeat constructor; exists d; auto.
Qed.

Lemma prepare_calls w r w' :
  prepare w = (r, w') -> exists cs, calls w' = calls w ++ cs /\ Forall prep_call cs.
Proof.
  rewrite prepare_ensure. intros H.
  apply bind_inv in H as [([] & w1 & H1 & H2) | (e & H1 & ->)].
  - apply ensure_calls in H1 as (cs1 & C1 & F1); [|by left].
    apply ensure_calls in H2 as (cs2 & C2 & F2); [|by right].
    exists (cs1 ++ cs2). rewrite C2, C1, app_assoc. split; [done|]. by apply Forall_app.
  - apply ensure_calls in H1; [done | by left].
Qed.

Lemma loop_calls_allowed img :
  exists src, forall l w r w',
    Forall (fun s => s ∈ sizes) l ->
    for_each l (iteration img) w = (r, w') ->
    exists cs, calls w' = calls w ++ cs /\ Forall (loop_call src) cs.
Proof.
  exists (match img with Lazy _ src => src | Broken _ _ _ _ => Picture 1 ModeL 1 1 end).
  intros l w r w' Hl. revert w. induction Hl as [|s l Hs Hl IH]; intros w.
  { intros [= <- <-]. exists []. by rewrite app_nil_r. }
  simpl. unfold bind.
  assert (exists cs r1 w1, iteration img s w = (r1, w1) /\
            calls w1 = calls w ++ cs /\
            Forall (loop_call match img with Lazy _ src => src
                                           | Broken _ _ _ _ => Picture 1 ModeL 1 1 end) cs)
    as (cs & r1 & w1 & H1 & C1 & F1).
  { rewrite iteration_eval by done.
    assert (forall src b, loop_call src (call_save (icon src s) (src_icon s) b)) as SA
      by (intros src b; exists s; auto).
    assert (forall src b, loop_call src (call_save (icon src s) (dist_icon s) b)) as SB
      by (intros src b; exists s; auto).
    assert (forall src, loop_call src (call_resize s s LANCZOS)) as SR
      by (intros src; by repeat split).
    assert (forall src cs,
              Forall (fun c => c = call_resize s s LANCZOS \/
                               (exists b, c = call_save (icon src s) (src_icon s) b) \/
                               (exists b, c = call_save (icon src s) (dist_icon s) b) \/
                               exists line, c = call_print line) cs ->
              Forall (loop_call src) cs) as Hall.
    { intros src cs H. eapply Forall_impl; [exact H|].
      intros c [-> | [(b & ->) | [(b & ->) | (line & ->)]]]; auto. exact I. }
    destruct img as [f src | f wd ht x].
    - destruct (write_error (src_icon s) w) as [e1|].
      { eexists _, _, _. split; [reflexivity|]. split; [reflexivity|].
        apply Hall. repeat (apply Forall_cons; split; [eauto 6|]). by apply Forall_nil. }
      destruct (encoder_error PNG src) as [x|].
      { eexists _, _, _. split; [reflexivity|]. split; [reflexivity|].
        apply Hall. repeat (apply Forall_cons; split; [eauto 6|]). by apply Forall_nil. }
      destruct (write_error (dist_icon s) w) as [e2|].
      + eexists _, _, _. split; [reflexivity|]. split; [reflexivity|].
        apply Hall. repeat (apply Forall_cons; split; [eauto 6|]). by apply Forall_nil.
      + eexists _, _, _. split; [reflexivity|]. split; [reflexivity|].
        apply Hall. unfold pass_calls.
        repeat (apply Forall_cons; split; [eauto 6|]). by apply Forall_nil.
    - eexists _, _, _. split; [reflexivity|]. split; [reflexivity|].
      apply Hall. repeat (apply Forall_cons; split; [eauto 6|]). by apply Forall_nil. }
  rewrite H1. destruct r1 as [[]|e].
  - intros H. destruct (IH _ H) as (cs2 & C2 & F2).
    exists (cs ++ cs2). rewrite C2, C1, app_assoc. split; [done|]. by apply Forall_app.
  - intros [= <- <-]. by exists cs.
Qed.

(** X4.  The library calls of a run are, in this order: existence
    checks and [os.makedirs] calls for the two destination directories
    and nothing else; then at most one [Image.open], of the source path;
    and after it only resizes to a square size from the list with the
    Lanczos filter, saves of such a copy of the one opened picture to
    one of the six output paths, and prints.  So no run opens another
    file, saves anywhere else, or resizes to another size or with
    another filter. *)
Theorem X4_calls_made m no :
  exists pre rest src,
    calls (snd (run m no)) = pre ++ rest /\
    Forall prep_call pre /\
    (rest = [] \/
     exists rest', rest = call_open source_path :: rest' /\ Forall (loop_call src) rest').
Proof.
  rewrite run_eq. destruct (prepare (boot m no)) as [r0 w0] eqn:Hp.
  destruct (prepare_calls _ _ _ Hp) as (pre & Cp & Fp). cbn [calls boot app] in Cp.
  destruct r0 as [[]|e0]; cycle 1.
  { exists pre, [], (Picture 1 ModeL 1 1). cbn [snd]. rewrite app_nil_r. auto. }
  assert (forall r w1, body w0 = (r, w1) ->
            exists src rest', calls w1 = pre ++ call_open source_path :: rest' /\
                              Forall (loop_call src) rest') as Hb.
  { unfold body. intros r w1 H.
    apply bind_inv in H as [(img & w & H1 & H2) | (e & H1 & ->)];
      apply Image_open_inv in H1 as (-> & _).
    - destruct (loop_calls_allowed img) as (src & Hsrc).
      destruct (Hsrc _ _ _ _ sizes_in_sizes H2) as (cs & C & F).
      exists src, cs. rewrite C. cbn [calls log]. rewrite Cp. by rewrite <- app_assoc.
    - exists (Picture 1 ModeL 1 1), []. cbn [calls log]. by rewrite Cp. }
  destruct (body w0) as [[[]|e] w1] eqn:E;
    destruct (Hb _ _ eq_refl) as (src & rest' & C & F); cbn [snd reported calls].
  - exists pre, (call_open source_path :: rest'), src. split; [done|]. split; [done|].
    right. by exists rest'.
  - exists pre, (call_open source_path :: rest' ++ [call_print (error_line e)]), src.
    split; [by rewrite C, <- app_assoc|]. split; [done|].
    right. exists (rest' ++ [call_print (error_line e)]). split; [done|].
    apply Forall_app. split; [done|]. by repeat constructor.
Qed.

(** ** X5: the order of the output lines *)

Lemma saved_lines_targets : saved_lines sizes = map (fun p => "Saved " +:+ p) targets.
Proof. reflexivity. Qed.

(** X5.  The [Saved] lines of a run are always an initial part of the
    six lines of a complete run, in the same order: a line is never
    skipped, repeated or printed out of turn.  After them comes the
    error line if the [try] body raised, and nothing else. *)
Theorem X5_output_is_a_prefix m no :
  exists shown,
    shown `prefix_of` map (fun p => "Saved " +:+ p) targets /\
    stdout (snd (run m no)) =
      shown ++ match status m no with
               | Caught e => [error_line e]
               | _ => []
               end.
Proof.
  rewrite run_eq. unfold status.
  destruct (prepare (boot m no)) as [r0 w0] eqn:Hp.
  destruct (prepared _ _ _ _ Hp) as (_ & O & _ & _).
  destruct r0 as [[]|e0]; cycle 1.
  { exists []. split; [apply prefix_nil|]. cbn [snd app]. by rewrite O. }
  destruct (body w0) as [r w1] eqn:Hb.
  assert (exists shown,
            shown `prefix_of` map (fun p => "Saved " +:+ p) targets /\
            stdout w1 = shown) as (shown & Hpre & Ho).
  { destruct (body_shape _ _ _ Hb)
      as [(src & earlier & later & next & Hsz & _ & Hn & _ & Ho & _)
         | (f & src & x & _ & _ & _ & _ & _ & Ho & _)].
    - rewrite O in Ho. cbn [app] in Ho.
      exists (saved_lines earlier ++ half_line next). split; [|exact Ho].
      rewrite <- saved_lines_targets, Hsz, saved_lines_app.
      apply prefix_app. destruct next as [s|]; [|apply prefix_nil].
      destruct (Hn s eq_refl) as (l' & ->).
      exists (("Saved " +:+ dist_icon s) :: saved_lines l'). reflexivity.
    - exists []. split; [apply prefix_nil | by rewrite Ho, O]. }
  exists shown. split; [exact Hpre|].
  destruct r as [[]|e]; cbn [snd reported stdout]; rewrite Ho; [by rewrite app_nil_r | done].
Qed.

(** ** X6: the two copies of an icon *)

(** X6.  In every run, also one that fails half way, the copy of an
    icon in the second directory is never ahead of the copy in the
    first: if the run changed [<dist_dir>\icon<size>.png] at all, then
    [<dest_dir>\icon<size>.png] holds the very same resized picture. *)
Theorem X6_dist_copy_follows_src_copy m no s :
  s ∈ sizes ->
  let final := fs (snd (run m no)) in
  final !! dist_icon s <> m !! dist_icon s ->
  final !! src_icon s = final !! dist_icon s /\
  exists src, final !! dist_icon s = Some (File (Encoded PNG (icon src s))).
Proof.
  intros Hs. cbn zeta. rewrite run_eq.
  destruct (prepare (boot m no)) as [r0 w0] eqn:Hp.
  pose proof (prepared_target _ _ _ _ _ Hp (dist_icon_target s Hs)) as Hd0.
  destruct r0 as [[]|e0]; [|cbn [snd]; congruence].
  assert (forall r w1, body w0 = (r, w1) ->
            fs w1 !! dist_icon s <> m !! dist_icon s ->
            fs w1 !! src_icon s = fs w1 !! dist_icon s /\
            exists src, fs w1 !! dist_icon s = Some (File (Encoded PNG (icon src s))))
    as Hb.
  { intros r w1 Hb Hne.
    destruct (body_shape _ _ _ Hb)
      as [(src & earlier & later & next & Hsz & _ & Hn & Hf & _)
         | (f & src & x & _ & _ & _ & _ & Hf & _)]; cycle 1.
    { exfalso. apply Hne. rewrite Hf, emptied_other; [exact Hd0|].
      apply not_eq_sym, src_dist_apart; [|exact Hs]. apply elem_of_sizes. auto. }
    pose proof sizes_NoDup as Hnd. rewrite Hsz in Hnd.
    apply NoDup_app in Hnd as (_ & Hdisj & _).
    assert (Forall (fun x => x ∈ sizes) earlier) as Hall.
    { apply Forall_forall. intros x Hx. rewrite Hsz. apply elem_of_app. by left. }
    assert (forall p, (forall t, next = Some t -> src_icon t <> p) ->
              fs w1 !! p = written src earlier (fs w0) !! p) as Hhalf.
    { intros p Hp'. rewrite Hf. destruct next as [t|]; [|done].
      cbn [half_pass]. apply lookup_insert_ne. by apply Hp'. }
    assert (fs w1 !! dist_icon s = written src earlier (fs w0) !! dist_icon s) as Ed.
    { apply Hhalf. intros t Ht. destruct (Hn t Ht) as (l' & ->).
      apply src_dist_apart; [|done]. rewrite Hsz, elem_of_app. right. apply list_elem_of_here. }
    destruct (decide (s ∈ earlier)) as [Hin | Hout].
    - destruct (written_icons src earlier (fs w0) s Hall Hin) as (WA & WB).
      assert (fs w1 !! src_icon s = written src earlier (fs w0) !! src_icon s) as Es.
      { apply Hhalf. intros t Ht E. destruct (Hn t Ht) as (l' & ->).
        apply src_icon_inj in E; [| |done].
        - subst t. apply (Hdisj s Hin). apply list_elem_of_here.
        - rewrite Hsz, elem_of_app. right. apply list_elem_of_here. }
      rewrite Es, Ed, WA, WB. split; [done|]. by exists src.
    - exfalso. apply Hne. rewrite Ed, written_other; [exact Hd0|].
      intros t Ht. assert (s <> t) as Hst by (intros ->; done).
      assert (t ∈ sizes) as Hts by (eapply Forall_forall in Hall; eauto).
      by destruct (icons_apart s t Hs Hts Hst) as (_ & _ & ? & ?). }
  destruct (body w0) as [[[]|e] w1] eqn:E; cbn [snd reported fs]; eauto.
Qed.

(** The statement above for the 16-pixel icon on the disk where the
    loop fails at [dist\icons\icon48.png]. *)
Lemma X6_dist_copy_follows_src_copy_witness :
  16 ∈ sizes /\
  fs (snd (run blocked_disk ∅)) !! dist_icon 16 <> blocked_disk !! dist_icon 16 /\
  fs (snd (run blocked_disk ∅)) !! src_icon 16 =
    fs (snd (run blocked_disk ∅)) !! dist_icon 16 /\
  exists src,
    fs (snd (run blocked_disk ∅)) !! dist_icon 16 =
    Some (File (Encoded PNG (icon src 16))).
Proof.
  assert (16 ∈ sizes) as Hs by (apply elem_of_sizes; auto).
  pose proof (X6_dist_copy_follows_src_copy blocked_disk ∅ 16 Hs) as H.
  cbv zeta in H.
  split; [exact Hs|]. split; [|apply H];
    intros E; vm_compute in E; discriminate E.
Defined.

(** ** X7: a source that cannot be loaded *)

(** X7.  If directory preparation returns and the source cannot be
    loaded as an image - the path is missing, is a directory, holds
    something that is not an image or an image whose pixel data is
    damaged, or the OS refuses to open it - then no [save] is ever
    called, no file is created or changed (both destination directories
    list what they listed before), and the whole output is one error
    line. *)
Theorem X7_unloadable_source_writes_nothing m no :
  fst (prepare (boot m no)) = Ok tt ->
  (forall f r, m !! source_path <> Some (File (Encoded f r))) \/ source_path ∈ no ->
  let final := snd (run m no) in
  exists e,
    status m no = Caught e /\
    stdout final = [error_line e] /\
    saves (calls final) = [] /\
    (forall p d, fs final !! p = Some (File d) <-> m !! p = Some (File d)) /\
    listing dest_dir (fs final) = listing dest_dir m /\
    listing dist_dir (fs final) = listing dist_dir m.
Proof.
  intros Hp%pair_fst Hbad. set (w0 := snd (prepare (boot m no))) in Hp.
  cbn zeta. destruct (prepared _ _ _ _ Hp) as (Dn & O & Fc & _).
  assert (exists e cs, body w0 = (Raise e, World (fs w0) (denied w0) (stdout w0)
                                             (calls w0 ++ cs)) /\ saves cs = [])
    as (e & cs & Hb & Hcs).
  { unfold body, bind.
    destruct (Image_open source_path w0) as [r1 w1] eqn:Ho.
    apply Image_open_inv in Ho as (-> & Ho).
    destruct r1 as [[f src | f wd ht] | e].
    - exfalso. destruct Ho as (E & Hd).
      rewrite (prepared_source _ _ _ _ Hp) in E. rewrite Dn in Hd.
      destruct Hbad as [Hbad | Hbad]; [by apply (Hbad f src) | done].
    - change sizes with (16 :: [48; 128]). cbn [for_each]. unfold bind.
      rewrite iteration_eval by (apply elem_of_sizes; auto).
      eexists _, [call_open source_path; call_resize 16 16 LANCZOS].
      split; [|reflexivity]. unfold log. cbn [fs denied stdout calls].
      by rewrite <- app_assoc.
    - by exists e, [call_open source_path]. }
  exists e. split; [apply status_Caught; eauto|].
  rewrite run_eq, Hp, Hb. cbn [snd reported fs stdout calls].
  rewrite O, !saves_app, (saves_dir_calls _ Fc), Hcs.
  split; [done|]. split; [done|].
  split; [intros p d; by apply (prepared_files m no (Ok tt))|].
  split; apply (listing_prepared m no (Ok tt)); auto.
Qed.

(** The statement above for a zero-byte source file. *)
Lemma X7_unloadable_source_writes_nothing_witness :
  fst (prepare (boot empty_source_disk ∅)) = Ok tt /\
  (forall f r, empty_source_disk !! source_path <> Some (File (Encoded f r))) /\
  let final := snd (run empty_source_disk ∅) in
  exists e,
    status empty_source_disk ∅ = Caught e /\
    stdout final = [error_line e] /\
    saves (calls final) = [] /\
    (forall p d, fs final !! p = Some (File d) <-> empty_source_disk !! p = Some (File d)) /\
    listing dest_dir (fs final) = listing dest_dir empty_source_disk /\
    listing dist_dir (fs final) = listing dist_dir empty_source_disk.
Proof.
  assert (forall f r, empty_source_disk !! source_path <> Some (File (Encoded f r)))
    as Hbad by (intros f r E; vm_compute in E; discriminate E).
  split; [vm_compute; reflexivity|]. split; [exact Hbad|].
  apply (X7_unloadable_source_writes_nothing empty_source_disk ∅);
    [vm_compute; reflexivity | left; exact Hbad].
Defined.

(** ** X8: running the script again *)

Lemma alike_refl w : alike w w.
Proof. split; [done | by left]. Qed.

Lemma alike_trans w1 w2 w3 : alike w1 w2 -> alike w2 w3 -> alike w1 w3.
Proof.
  intros (D1 & F1) (D2 & F2). split; [congruence|]. intros q.
  destruct (F2 q) as [E2 | (T & A2 & B2)].
  - rewrite E2. destruct (F1 q) as [E1 | (T & A1 & B1)]; [by left|].
    right. split; [done|]. split; [done|]. unfold is_dir_in in *. by rewrite E2.
  - right. split; [done|]. split; [|done].
    destruct (F1 q) as [E1 | (_ & A1 & _)]; [|done].
    unfold is_dir_in in *. by rewrite <- E1.
Qed.

(** Between alike worlds the same writes to output paths are possible,
    and fail for the same reason. *)
Lemma alike_write_error w w' p :
  alike w w' -> p ∈ targets -> write_error p w' = write_error p w.
Proof.
  intros (D & F) Hp. apply write_error_same; [| |done].
  - destruct (F p) as [E | (_ & A & B)]; [|congruence].
    unfold is_dir_in. by rewrite E.
  - destruct (F (Path.dirname p)) as [E | (T & _)].
    + unfold is_dir_in. by rewrite E.
    + by apply (target_not_parent p) in T.
Qed.

Lemma alike_insert w w' p d :
  p ∈ targets -> write_error p w = None ->
  fs w' = <[p := File d]> (fs w) -> denied w' = denied w -> alike w w'.
Proof.
  intros Hp Hw Hf Hd. apply write_error_None in Hw as (A & _).
  split; [done|]. intros q. rewrite Hf. destruct (decide (p = q)) as [<- | Hne].
  - right. split; [done|]. split; [done|]. unfold is_dir_in. by rewrite lookup_insert_eq.
  - left. by rewrite lookup_insert_ne.
Qed.

Lemma alike_emptied w w' p :
  p ∈ targets -> write_error p w = None ->
  fs w' = emptied p (fs w) -> denied w' = denied w -> alike w w'.
Proof.
  intros Hp Hw Hf Hd. apply write_error_None in Hw as (A & _).
  split; [done|]. intros q. rewrite Hf.
  destruct (emptied_lookup p (fs w) q) as [E | (-> & E)]; [by left|].
  right. split; [done|]. split; [done|]. unfold is_dir_in. by rewrite E.
Qed.

Lemma alike_log c w : alike w (log c w).
Proof. split; [done | by left]. Qed.

(** A pass leaves a world alike the one it started in. *)
Lemma iteration_alike img s w r w' :
  s ∈ sizes -> iteration img s w = (r, w') -> alike w w'.
Proof.
  intros Hs. rewrite iteration_eval by done.
  pose proof (src_icon_target s Hs) as HA. pose proof (dist_icon_target s Hs) as HB.
  destruct img as [f src | f wd ht x]; [|intros [= <- <-]; apply alike_log].
  destruct (write_error (src_icon s) w) as [e1|] eqn:E1.
  { intros [= <- <-]. split; [done | by left]. }
  destruct (encoder_error PNG src) as [x|] eqn:EP.
  { intros [= <- <-].
    apply (alike_emptied w _ (src_icon s)); [exact HA | exact E1 | reflexivity | reflexivity]. }
  assert (alike w (World (<[src_icon s := icon_file src s]> (fs w)) (denied w) [] []))
    as A1
    by (apply (alike_insert w _ (src_icon s) (Encoded PNG (icon src s)));
        [exact HA | exact E1 | reflexivity | reflexivity]).
  destruct (write_error (dist_icon s) w) as [e2|] eqn:E2; intros [= <- <-].
  { destruct A1 as (D & F). by split. }
  eapply alike_trans; [exact A1|].
  apply (alike_insert _ _ (dist_icon s) (Encoded PNG (icon src s)));
    [exact HB | | reflexivity | reflexivity].
  rewrite (alike_write_error _ _ _ A1 HB). exact E2.
Qed.

Lemma loop_alike img l w r w' :
  Forall (fun s => s ∈ sizes) l ->
  for_each l (iteration img) w = (r, w') -> alike w w'.
Proof.
  intros Hl. revert w. induction Hl as [|s l Hs Hl IH]; intros w.
  { intros [= <- <-]. apply alike_refl. }
  simpl. intros H. apply bind_inv in H as [([] & w1 & H1 & H2) | (e & H1 & ->)].
  - eapply alike_trans; [eapply iteration_alike | eapply IH]; eauto.
  - eapply iteration_alike; eauto.
Qed.

Lemma emptied_again p (m m' : gmap string node) :
  m' !! p = emptied p m !! p -> emptied p m' = m'.
Proof.
  intros H.
  assert (emptied p m !! p = None \/ emptied p m !! p = Some (File (Junk []))) as Hor.
  { unfold emptied. destruct (m !! p) eqn:E; [right; apply lookup_insert_eq | by left]. }
  unfold emptied at 1. destruct (m' !! p) as [y|] eqn:E'; [|done].
  apply insert_id. destruct Hor as [N | J]; congruence.
Qed.

(** A loop over [l] touches no path but the files of the sizes in
    [l]. *)
Lemma loop_untouched img l w r w' p :
  Forall (fun s => s ∈ sizes) l ->
  for_each l (iteration img) w = (r, w') ->
  (forall s, s ∈ l -> p <> src_icon s /\ p <> dist_icon s) ->
  fs w' !! p = fs w !! p.
Proof.
  intros Hl H Hp.
  destruct (loop_shape _ _ _ _ _ Hl H)
    as [(src & earlier & later & next & -> & _ & Hn & _ & -> & _)
       | (f & src & x & s & l' & _ & -> & _ & _ & _ & -> & _)]; cycle 1.
  { apply emptied_other. apply (Hp s). apply list_elem_of_here. }
  assert (written src earlier (fs w) !! p = fs w !! p) as E.
  { apply written_other. intros s Hs. apply Hp, elem_of_app. by left. }
  destruct next as [s|]; [|exact E]. cbn [half_pass].
  destruct (Hn s eq_refl) as (l' & ->).
  destruct (Hp s) as (A & _).
  { apply elem_of_app. right. apply list_elem_of_here. }
  rewrite lookup_insert_ne by (by apply not_eq_sym). exact E.
Qed.

(** Running the loop again after it has run: started in a world alike
    the first one that already holds what the first run left in the
    files of [l], the loop ends the same way, changes nothing, and
    prints the same lines. *)
Lemma loop_replay f src l w r w1 w' :
  Forall (fun s => s ∈ sizes) l -> NoDup l ->
  for_each l (iteration (Lazy f src)) w = (r, w1) ->
  alike w w' ->
  (forall s, s ∈ l ->
     fs w' !! src_icon s = fs w1 !! src_icon s /\
     fs w' !! dist_icon s = fs w1 !! dist_icon s) ->
  exists w1',
    for_each l (iteration (Lazy f src)) w' = (r, w1') /\
    fs w1' = fs w' /\ denied w1' = denied w' /\
    exists out, stdout w1 = stdout w ++ out /\ stdout w1' = stdout w' ++ out.
Proof.
  intros Hl. revert w w'. induction Hl as [|s l Hs Hl IH]; intros w w' Hnd H Ha Hag.
  { injection H as <- <-. exists w'. split; [done|]. split; [done|]. split; [done|].
    exists []. by rewrite !app_nil_r. }
  apply NoDup_cons in Hnd as (Hsl & Hnd).
  pose proof (src_icon_target s Hs) as HA. pose proof (dist_icon_target s Hs) as HB.
  destruct (Hag s) as (GA & GB); [apply list_elem_of_here|].
  simpl in H |- *. unfold bind in H |- *.
  rewrite iteration_eval in H |- * by done.
  rewrite (alike_write_error _ _ _ Ha HA), (alike_write_error _ _ _ Ha HB).
  destruct (write_error (src_icon s) w) as [e1|] eqn:E1.
  { injection H as <- <-. eexists. split; [reflexivity|]. cbn [fs denied stdout].
    split; [done|]. split; [done|]. exists []. by rewrite !app_nil_r. }
  destruct (encoder_error PNG src) as [x|] eqn:EP.
  { injection H as <- <-. eexists. split; [reflexivity|].
    cbn [fs denied stdout] in GA |- *.
    split; [exact (emptied_again _ _ _ GA)|]. split; [done|].
    exists []. by rewrite !app_nil_r. }
  destruct (write_error (dist_icon s) w) as [e2|] eqn:E2.
  { injection H as <- <-. eexists. split; [reflexivity|]. cbn [fs denied stdout] in GA |- *.
    rewrite lookup_insert_eq in GA. split; [by apply insert_id|]. split; [done|].
    by eexists. }
  (* the pass completes in both runs *)
  assert (forall p, p = src_icon s \/ p = dist_icon s ->
            fs w1 !! p = Some (icon_file src s)) as Hkept.
  { intros p Hp. rewrite (loop_untouched _ _ _ _ _ p Hl H).
    - unfold pass_world. cbn [fs]. destruct Hp as [-> | ->].
      + rewrite lookup_insert_ne by (apply not_eq_sym; by apply src_dist_apart).
        apply lookup_insert_eq.
      + apply lookup_insert_eq.
    - intros t Ht. assert (s <> t) as Hst by (intros ->; done).
      assert (t ∈ sizes) as Hts by (eapply Forall_forall in Hl; eauto).
      destruct (icons_apart s t Hs Hts Hst) as (A1 & A2 & A3 & A4).
      destruct Hp as [-> | ->]; by split. }
  rewrite (Hkept _ (or_introl eq_refl)) in GA.
  rewrite (Hkept _ (or_intror eq_refl)) in GB.
  assert (fs (pass_world src s w') = fs w') as Hfs.
  { unfold pass_world. cbn [fs].
    rewrite (insert_id (fs w') (src_icon s)) by exact GA. by apply insert_id. }
  destruct (IH (pass_world src s w) (pass_world src s w') Hnd H) as (w1' & R & F & D & out & O1 & O2).
  - split; [exact (proj1 Ha)|]. intros q. rewrite Hfs.
    unfold pass_world. cbn [fs].
    destruct (decide (q = dist_icon s)) as [-> | NB].
    { right. split; [exact HB|]. unfold is_dir_in.
      rewrite lookup_insert_eq, GB. done. }
    destruct (decide (q = src_icon s)) as [-> | NA].
    { right. split; [exact HA|]. unfold is_dir_in.
      rewrite lookup_insert_ne by (by apply not_eq_sym).
      rewrite lookup_insert_eq, GA. done. }
    destruct Ha as (_ & Fa). unfold is_dir_in.
    rewrite !lookup_insert_ne by (by apply not_eq_sym). apply Fa.
  - intros t Ht. rewrite Hfs. apply Hag. by apply elem_of_cons; right.
  - exists w1'. split; [exact R|]. rewrite F, D, Hfs. split; [done|]. split; [done|].
    exists (["Saved " +:+ src_icon s; "Saved " +:+ dist_icon s] ++ out).
    rewrite O1, O2. unfold pass_world. cbn [stdout]. by rewrite <- !app_assoc.
Qed.

Lemma Image_open_same p w w' :
  fs w' !! p = fs w !! p -> denied w' = denied w ->
  Image_open p w' = (fst (Image_open p w), log (call_open p) w').
Proof.
  intros F D. unfold Image_open. cbn [fs denied log]. rewrite F, D.
  destruct (fs w !! p) as [[|d]|]; try reflexivity.
  case_bool_decide; [reflexivity|].
  destruct d as [f pic | f wd ht x | b]; [| |reflexivity].
  - by destruct (decompression_bomb_check (size pic)).
  - by destruct (decompression_bomb_check (wd, ht)).
Qed.

Lemma body_alike w r w' : body w = (r, w') -> alike w w'.
Proof.
  unfold body. intros H.
  apply bind_inv in H as [(img & w1 & H1 & H2) | (e & H1 & ->)];
    apply Image_open_inv in H1 as (-> & _); [|apply alike_log].
  eapply alike_trans; [apply alike_log|].
  eapply loop_alike; [apply sizes_in_sizes | exact H2].
Qed.

(** The [try] body run again on the files it left behind: it ends the
    same way, changes no file, and prints the same lines. *)
Lemma body_replay w r w1 w' :
  body w = (r, w1) -> denied w' = denied w -> fs w' = fs w1 ->
  exists w1',
    body w' = (r, w1') /\ fs w1' = fs w' /\
    exists out, stdout w1 = stdout w ++ out /\ stdout w1' = stdout w' ++ out.
Proof.
  intros H D F. pose proof (body_alike _ _ _ H) as (_ & Fa).
  assert (fs w' !! source_path = fs w !! source_path) as Es.
  { rewrite F. destruct (Fa source_path) as [E | (T & _)]; [exact E|].
    by apply source_not_target in T. }
  unfold body, bind in H |- *. rewrite (Image_open_same _ _ _ Es D).
  destruct (Image_open source_path w) as [ri wi] eqn:Ho.
  apply Image_open_inv in Ho as (-> & _). cbn [fst].
  destruct ri as [[f src | f wd ht] | e].
  - destruct (loop_replay f src sizes _ r w1 (log (call_open source_path) w')
                sizes_in_sizes sizes_NoDup H)
      as (w1' & R & F' & _ & out & O1 & O2).
    + split; [exact D|]. intros q. cbn [fs log]. rewrite F. apply Fa.
    + intros s _. cbn [fs log]. by rewrite F.
    + exists w1'. split; [exact R|]. split; [exact F'|]. by exists out.
  - change sizes with (16 :: [48; 128]) in H |- *. cbn [for_each] in H |- *.
    unfold bind in H |- *.
    rewrite iteration_eval in H |- * by (apply elem_of_sizes; auto).
    injection H as <- <-. eexists. split; [reflexivity|]. split; [reflexivity|].
    exists []. cbn [stdout log]. by rewrite !app_nil_r.
  - injection H as <- <-. eexists. split; [reflexivity|]. split; [reflexivity|].
    exists []. cbn [stdout log]. by rewrite !app_nil_r.
Qed.

(** X8.  Running the script a second time on the files the first run
    left behind reproduces the first run, whenever directory
    preparation returned: the second run ends the same way (completed,
    or with the same exception caught), leaves every file and directory
    as the first run left it, and prints the same lines.  This holds
    for failed runs too: a run that stopped half way stops at the same
    place again. *)
Theorem X8_rerun_reproduces m no :
  fst (prepare (boot m no)) = Ok tt ->
  let first := snd (run m no) in
  let second := snd (run (fs first) no) in
  status (fs first) no = status m no /\
  fs second = fs first /\
  stdout second = stdout first.
Proof.
  intros Hp%pair_fst. set (w0 := snd (prepare (boot m no))) in Hp. cbn zeta.
  destruct (prepared _ _ _ _ Hp) as (Dn & O & _ & _).
  destruct (body w0) as [r w1] eqn:Hb.
  assert (fs (snd (run m no)) = fs w1) as Hfirst.
  { rewrite run_eq, Hp, Hb. by destruct r as [[]|e]. }
  assert (stdout (snd (run m no)) =
          stdout w1 ++ match r with Raise e => [error_line e] | Ok _ => [] end) as Hout.
  { rewrite run_eq, Hp, Hb. destruct r as [[]|e]; cbn [snd reported stdout];
      [by rewrite app_nil_r | reflexivity]. }
  assert (status m no = match r with Ok _ => Completed | Raise e => Caught e end) as Hst.
  { unfold status. rewrite Hp, Hb. by destruct r as [[]|e]. }
  rewrite Hfirst, Hout, Hst. clear Hfirst Hout Hst.
  (* the second run finds both directories *)
  pose proof (body_alike _ _ _ Hb) as (_ & Fa).
  assert (forall d, d = dest_dir \/ d = dist_dir -> exists_in d (fs w1) = true) as Hex.
  { intros d Hd. apply prepare_spec in Hp as (_ & _ & _ & Dd).
    destruct (Dd eq_refl d Hd) as (E & _). unfold exists_in in E |- *.
    destruct (Fa d) as [-> | (T & _)]; [exact E|]. exfalso.
    apply (dir_not_target d); [|exact T].
    destruct Hd as [-> | ->];
      [apply dest_chain_sub | apply dist_chain_sub]; apply list_elem_of_here. }
  pose proof (prepare_skip (boot (fs w1) no)
                (Hex _ (or_introl eq_refl)) (Hex _ (or_intror eq_refl))) as Hp2.
  destruct (body_replay w0 r w1
              (log (call_exists dist_dir) (log (call_exists dest_dir) (boot (fs w1) no)))
              Hb (eq_sym Dn) eq_refl)
    as (w1' & Hb2 & F2 & out & O1 & O2).
  cbn [fs stdout log boot] in F2, O2. rewrite O in O1. cbn [app] in O1, O2.
  split; [unfold status; rewrite Hp2, Hb2; by destruct r as [[]|e]|].
  rewrite (run_eq (fs w1) no), Hp2, Hb2.
  destruct r as [[]|e]; cbn [snd reported fs stdout];
    rewrite F2, O1, O2, ?app_nil_r; by split.
Qed.

(** The statement above on a disk where the loop fails at
    [dist\icons\icon48.png]: the second run fails there again. *)
Lemma X8_rerun_reproduces_witness :
  fst (prepare (boot blocked_disk ∅)) = Ok tt /\
  let first := snd (run blocked_disk ∅) in
  let second := snd (run (fs first) ∅) in
  status (fs first) ∅ = status blocked_disk ∅ /\
  fs second = fs first /\
  stdout second = stdout first.
Proof.
  split; [vm_compute; reflexivity|].
  apply (X8_rerun_reproduces blocked_disk ∅); vm_compute; reflexivity.
Defined.

(** ** X9: when directory preparation fails *)

(** X9.  When directory preparation fails, [os.path.exists] had found
    at least one of the two destination paths missing.  Such a run
    makes no call but the existence checks and [os.makedirs]: it never
    opens the source, resizes, saves or prints.  It creates and changes
    no file: a path holds what it held, or is a new directory on the
    way to a destination. *)
Theorem X9_preparation_failure m no e :
  status m no = Uncaught e ->
  (exists_in dest_dir m = false \/ exists_in dist_dir m = false) /\
  Forall prep_call (calls (snd (run m no))) /\
  stdout (snd (run m no)) = [] /\
  (forall p d, fs (snd (run m no)) !! p = Some (File d) <-> m !! p = Some (File d)) /\
  (forall p, fs (snd (run m no)) !! p = m !! p \/
             (p ∈ dir_chain /\ m !! p = None /\ fs (snd (run m no)) !! p = Some Dir)).
Proof.
  intros (w0 & Hp)%status_Uncaught. rewrite run_eq, Hp. cbn [snd].
  destruct (prepare_calls _ _ _ Hp) as (cs & C & Fc). cbn [calls boot app] in C.
  rewrite C. destruct (prepared _ _ _ _ Hp) as (_ & O & _ & F).
  split; [|split; [exact Fc | split; [exact O | split; [|exact F]]]].
  - destruct (exists_in dest_dir m) eqn:E1; [|by left].
    destruct (exists_in dist_dir m) eqn:E2; [|by right].
    rewrite (prepare_skip (boot m no) E1 E2) in Hp. discriminate Hp.
  - intros p d. exact (prepared_files m no _ w0 p d Hp).
Qed.

(** The statement above on an empty [D:] drive where the OS refuses to
    create [D:\AI_project]. *)
Lemma X9_preparation_failure_witness :
  status fresh_disk locked =
    Uncaught (Exn PermissionError "[WinError 5] Access is denied: 'D:\\AI_project'") /\
  (exists_in dest_dir fresh_disk = false \/ exists_in dist_dir fresh_disk = false) /\
  Forall prep_call (calls (snd (run fresh_disk locked))) /\
  stdout (snd (run fresh_disk locked)) = [] /\
  (forall p d, fs (snd (run fresh_disk locked)) !! p = Some (File d) <->
               fresh_disk !! p = Some (File d)) /\
  (forall p, fs (snd (run fresh_disk locked)) !! p = fresh_disk !! p \/
             (p ∈ dir_chain /\ fresh_disk !! p = None /\
              fs (snd (run fresh_disk locked)) !! p = Some Dir)).
Proof.
  split; [vm_compute; reflexivity|].
  apply (X9_preparation_failure fresh_disk locked
           (Exn PermissionError "[WinError 5] Access is denied: 'D:\\AI_project'")).
  vm_compute; reflexivity.
Defined.

(** ** X10: what a completed run tells about the disk *)

(** X10.  A run completes only if the source is a complete image file
    the OS lets the script read, neither destination path is occupied
    by a regular file, and none of the six output paths is a directory
    or refused by the OS. *)
Theorem X10_completion_needs m no :
  status m no = Completed ->
  (exists f src, m !! source_path = Some (File (Encoded f src))) /\
  (source_path ∉ no) /\
  (forall d, d = dest_dir \/ d = dist_dir -> m !! d = None \/ m !! d = Some Dir) /\
  (forall p, p ∈ targets -> m !! p <> Some Dir /\ p ∉ no).
Proof.
  intros (w0 & w1 & Hp & Hb)%status_Completed.
  destruct (prepared _ _ _ _ Hp) as (Dn & _ & _ & F).
  apply body_completed in Hb as (f & src & E & Hden & _ & Hok & _).
  assert (16 ∈ sizes) as H16 by (apply elem_of_sizes; auto).
  split; [exists f, src; by rewrite <- (prepared_source _ _ _ _ Hp)|].
  split; [by rewrite <- Dn|]. split.
  - intros d Hd.
    assert (is_dir_in d (fs w0) = true) as Hdir.
    { destruct Hd as [-> | ->].
      - destruct (proj1 (write_error_None _ _) (Hok _ (src_icon_target 16 H16)))
          as (_ & B & _).
        by rewrite src_icon_dirname in B.
      - destruct (proj1 (write_error_None _ _) (Hok _ (dist_icon_target 16 H16)))
          as (_ & B & _).
        by rewrite dist_icon_dirname in B. }
    apply is_dir_in_Some in Hdir.
    destruct (F d) as [Eq | (_ & N & _)]; [right; by rewrite <- Eq | by left].
  - intros p Hpt.
    destruct (proj1 (write_error_None _ _) (Hok p Hpt)) as (A & _ & C).
    split; [|by rewrite <- Dn]. intros Hm. unfold is_dir_in in A.
    rewrite (prepared_target _ _ _ _ p Hp Hpt), Hm in A. discriminate A.
Qed.

(** The statement above on a disk whose [D:] drive is empty. *)
Lemma X10_completion_needs_witness :
  status fresh_disk ∅ = Completed /\
  (exists f src, fresh_disk !! source_path = Some (File (Encoded f src))) /\
  (source_path ∉ (∅ : gset string)) /\
  (forall d, d = dest_dir \/ d = dist_dir ->
     fresh_disk !! d = None \/ fresh_disk !! d = Some Dir) /\
  (forall p, p ∈ targets -> fresh_disk !! p <> Some Dir /\ p ∉ (∅ : gset string)).
Proof.
  split; [vm_compute; reflexivity|].
  apply (X10_completion_needs fresh_disk ∅). vm_compute; reflexivity.
Defined.

(** ** X11: the failures the [except] clause can see *)





(** Two of the causes at work: an image of 14000 x 14000 pixels is
    refused when it is opened, and a CMYK image when it is saved. *)
Lemma oversized_and_cmyk_sources :
  status (<[ source_path := File (Encoded PNG (Picture 17 ModeRGB 14000 14000)) ]>
            no_source_disk) ∅ =
    Caught (Exn DecompressionBombError
              "Image size (196000000 pixels) exceeds limit of 178956970 pixels, could be decompression bomb DOS attack.") /\
  status (<[ source_path := File (Encoded JPEG separation) ]> no_source_disk) ∅ =
    Caught (Exn OSError "cannot write mode CMYK as PNG") /\
  fs (snd (run (<[ source_path := File (Encoded JPEG separation) ]> no_source_disk) ∅))
    !! src_icon 16 = None.
Proof. by_running. Qed.
